(** * m3f_tib_predictMex: predictions of the M3F-TIB model from Gibbs samples

    A shallow embedding of [version-2014_02/mex/m3f_tib_predictMex.c]
    ([addOffsets] and [mexFunction]) and the properties of the prediction
    aggregation it implements.

    Conventions of the embedding.
    - A [double] is a carrier with the operations the C code applies to it
      ([Arith]); every structural result holds for any such carrier, IEEE
      binary64 included ([binary64], on Rocq's primitive floats).
    - C integers are [Z] with the conversions of the source written out
      ([uint32_t] index arithmetic wraps modulo 2^32, [int] and [ptrdiff_t]
      conversions of [mwSize] values wrap to the signed range).  [mwSize]
      is the 64-bit [size_t] of the large-array API; loop counters are
      [nat]s, which follows the [int] counters [t] and [i] of the source
      below 2^31 iterations.
    - A C array is a [list]; a read outside it is undefined behaviour in C
      and [None] here, so every routine returns an [option].
    - The [omp parallel for] loops write slot [e] in iteration [e] only, so
      they are embedded as sequential loops.
    - The host interface ([mex.h]) is embedded by what the code reads
      through it: an [mxArray] is its dimensions and its data, a struct
      array element a record of its fields.  [exp] ([math.h]) is a
      parameter of the arithmetic and [ddot] ([blas.h]) the inner product.
      The thread count, [MAX_NUM_THREADS] of [mexCommon.h], and the two
      [mexPrintf] notices have no effect on the output. *)

From Stdlib Require Import ZArith List Lia Bool.
From Stdlib Require Import Floats.
From stdpp Require Import base list.

Local Open Scope Z_scope.

(** ** Arithmetic on doubles *)

Class Arith : Type := {
  double : Type;
  dzero : double;                       (* the 0.0 of a fresh mxArray *)
  dadd : double -> double -> double;    (* x + y *)
  dmul : double -> double -> double;    (* x * y *)
  ddiv : double -> double -> double;    (* x / y *)
  dexp : double -> double;              (* exp of math.h *)
  of_mwSize : Z -> double               (* (double)n for an mwSize n *)
}.

(** IEEE binary64, with [exp] of the C library as a parameter.  The
    conversion of a count is exact below 2^53 and correctly rounded below
    2^63. *)
Definition binary64 (exp : float -> float) : Arith := {|
  double := float;
  dzero := 0%float;
  dadd := PrimFloat.add;
  dmul := PrimFloat.mul;
  ddiv := PrimFloat.div;
  dexp := exp;
  of_mwSize := fun n => PrimFloat.of_uint63 (Uint63.of_Z n)
|}.

(** Exact arithmetic on integers, with the exponential of base 2: a carrier
    where addition is associative, for worked examples. *)
Definition exactZ : Arith := {|
  double := Z;
  dzero := 0;
  dadd := Z.add;
  dmul := Z.mul;
  ddiv := Z.div;
  dexp := fun x => 2 ^ x;
  of_mwSize := fun n => n
|}.

(** ** Machine integers *)

(** [uint32_t] arithmetic. *)
Definition wrap32 (z : Z) : Z := z mod 2 ^ 32.

(** Conversion of an [mwSize] to [int]. *)
Definition to_int (z : Z) : Z := (z + 2 ^ 31) mod 2 ^ 32 - 2 ^ 31.

(** Conversion of an [mwSize] to [ptrdiff_t]. *)
Definition to_ptrdiff (z : Z) : Z := (z + 2 ^ 63) mod 2 ^ 64 - 2 ^ 63.

(** Conversion of an [int] to [mwSize] (64-bit, unsigned), as in the
    comparison [e < numExamples] of [addOffsets]. *)
Definition to_mwSize (z : Z) : Z := z mod 2 ^ 64.

(** ** Memory *)

(** The error monad of reads: [None] is an access outside an array. *)
Notation "'let*' x ':=' m 'in' k" :=
  (match m with Some x => k | None => None end)
  (at level 10, x name, m at level 100, k at level 200,
   format "'[v' 'let*'  x  ':='  m  'in' '/' k ']'").

(** [p[i]] for a pointer [p] to the start of an array. *)
Definition rd {T : Type} (p : list T) (i : Z) : option T :=
  if i <? 0 then None else p !! Z.to_nat i.

(** [for (e = start; e < start + count; e++) body]. *)
Fixpoint for_range {S : Type} (body : nat -> S -> option S)
    (e count : nat) (st : S) : option S :=
  match count with
  | O => Some st
  | Datatypes.S k => let* st' := body e st in for_range body (Datatypes.S e) k st'
  end.

(** ** Host arrays (mex.h) *)

(** An mxArray: its row and column counts and its data, column-major. *)
Record mxArray (T : Type) : Type := MxArray {
  mxGetM : Z;
  mxGetN : Z;
  mxData : list T
}.
Arguments MxArray {T} _ _ _.
Arguments mxGetM {T} _.
Arguments mxGetN {T} _.
Arguments mxData {T} _.

(** [mxGetData]: the data pointer, [NULL] for an empty array. *)
Definition mxGetData {T : Type} (arr : mxArray T) : option (list T) :=
  match mxData arr with
  | [] => None
  | l => Some l
  end.

Section Predict.
Context {A : Arith}.

(** [mxGetPr]: the pointer to the doubles; a read through the [NULL] of an
    empty array fails like a read of the empty list. *)
Definition mxGetPr (arr : mxArray double) : list double := mxData arr.

(** One element of the [samples] struct array, by field. *)
Record Sample : Type := MkSample {
  fld_chi : mxArray double;
  fld_logthetaU : mxArray double;
  fld_logthetaM : mxArray double;
  fld_a : mxArray double;
  fld_b : mxArray double;
  fld_c : mxArray double;
  fld_d : mxArray double
}.

(** The right-hand sides of a call:
    [m3f_tib_predictMex(users, items, samples, zU, zM, add)]. *)
Record MexInput : Type := MkInput {
  prhs0 : mxArray Z;        (* users *)
  prhs1 : mxArray Z;        (* items *)
  prhs2 : mxArray Sample;   (* samples *)
  prhs3 : mxArray Z;        (* zU *)
  prhs4 : mxArray Z;        (* zM *)
  prhs5 : mxArray bool      (* [addBase, addCoffsets, addDoffsets] *)
}.

(** [preds[e] += v]. *)
Definition add_at (e : nat) (v : double) (preds : list double)
    : option (list double) :=
  let* p := preds !! e in Some (<[e := dadd p v]> preds).

(** Modelled from the spec: [ddot] of the BLAS library ([blas.h]) is not
    part of the repository.  It is the inner product of the [n]-length
    vectors at [x + ix] and [y + iy] (unit strides), accumulated from zero
    in index order as the reference BLAS does. *)
Fixpoint ddot_loop (n : nat) (x : list double) (ix : Z)
    (y : list double) (iy : Z) (dtemp : double) : option double :=
  match n with
  | O => Some dtemp
  | Datatypes.S k =>
      let* xv := rd x ix in
      let* yv := rd y iy in
      ddot_loop k x (ix + 1) y (iy + 1) (dadd dtemp (dmul xv yv))
  end.

Definition ddot (n : Z) (x : list double) (ix : Z) (y : list double) (iy : Z)
    : option double :=
  ddot_loop (Z.to_nat n) x ix y iy dzero.

(** ** [addOffsets] *)

(** Body of the loop of the branch [zU != NULL]. *)
Definition known_topic_body (items : list Z) (KU : Z) (d : list double)
    (zU : list Z) (e : nat) (preds : list double) : option (list double) :=
  let* it := items !! e in
  let* z := zU !! e in
  let* x := rd d (wrap32 (wrap32 (wrap32 (it - 1) * wrap32 KU) + wrap32 (z - 1))) in
  add_at e x preds.

(** Body of the loop of the branch [KU > 1]. *)
Definition integrate_body (users items : list Z) (KU : Z)
    (logthetaU d : list double) (e : nat) (preds : list double)
    : option (list double) :=
  let* u := users !! e in
  let* it := items !! e in
  let logthetaPtr := wrap32 (wrap32 (u - 1) * wrap32 KU) in
  let dPtr := wrap32 (wrap32 (it - 1) * wrap32 KU) in
  for_range (fun i preds =>
      let* dv := rd d (dPtr + Z.of_nat i) in
      let* lv := rd logthetaU (logthetaPtr + Z.of_nat i) in
      add_at e (dmul dv (dexp lv)) preds)
    0 (Z.to_nat KU) preds.

(** Body of the loop of the last branch (only one topic exists). *)
Definition single_topic_body (items : list Z) (KU : Z) (d : list double)
    (e : nat) (preds : list double) : option (list double) :=
  let* it := items !! e in
  let* x := rd d (wrap32 (wrap32 (it - 1) * wrap32 KU)) in
  add_at e x preds.

Definition addOffsets (users items : list Z) (KU numExamples : Z)
    (logthetaU d : list double) (zU : option (list Z))
    (preds : list double) : option (list double) :=
  let n := Z.to_nat (to_mwSize numExamples) in
  match zU with
  | Some zU =>
      (* Use given topics *)
      for_range (known_topic_body items KU d zU) 0 n preds
  | None =>
      if 1 <? KU then
        (* Integrate out topics *)
        for_range (integrate_body users items KU logthetaU d) 0 n preds
      else
        (* Only one topic exists *)
        for_range (single_topic_body items KU d) 0 n preds
  end.

(** ** [mexFunction] *)

(** Body of the loop adding the factorization and the global offset,
    [numFacs > 0]. *)
Definition base_body (users items : list Z) (numFacs : Z) (chi : double)
    (a b : list double) (e : nat) (preds : list double)
    : option (list double) :=
  let* u := users !! e in
  let* it := items !! e in
  let* dot := ddot numFacs a (numFacs * wrap32 (u - 1))
                           b (numFacs * wrap32 (it - 1)) in
  add_at e (dadd chi dot) preds.

(** Body of the averaging loop: [preds[e] /= numSamples]. *)
Definition div_body (numSamples : Z) (e : nat) (preds : list double)
    : option (list double) :=
  let* p := preds !! e in
  Some (<[e := ddiv p (of_mwSize numSamples)]> preds).

(** Number of samples: the larger dimension of the struct array. *)
Definition numSamples_of (samples : mxArray Sample) : Z :=
  let numSamples := mxGetM samples in
  let dimN := mxGetN samples in
  if numSamples <? dimN then dimN else numSamples.

(** What [mexFunction] extracts once, before the loop over the samples:
    the scalars, read from the first sample and from [add] ... *)
Record Scalars : Type := MkScalars {
  x_numExamples : Z;
  x_chi : double;
  x_KU : Z;
  x_KM : Z;
  x_numFacs : Z;
  x_addBase : bool;
  x_addC : bool;
  x_addD : bool
}.

(** ... and the pointers to the index arrays. *)
Record Extracted : Type := MkExtracted {
  x_users : list Z;
  x_items : list Z;
  x_zU : option (list Z);
  x_zM : option (list Z);
  x_scalars :> Scalars
}.

Definition extract (inp : MexInput) : option Extracted :=
  let samples := prhs2 inp in
  let* s0 := mxData samples !! 0%nat in
  let* chi := mxGetPr (fld_chi s0) !! 0%nat in
  let add := mxData (prhs5 inp) in
  let* addBase := add !! 0%nat in
  let* addC := add !! 1%nat in
  let* addD := add !! 2%nat in
  Some {| x_users := mxData (prhs0 inp);
          x_items := mxData (prhs1 inp);
          x_zU := mxGetData (prhs3 inp);
          x_zM := mxGetData (prhs4 inp);
          x_scalars :=
            {| x_numExamples := mxGetM (prhs0 inp);
               x_chi := chi;
               x_KU := to_int (mxGetM (fld_logthetaU s0));
               x_KM := to_int (mxGetM (fld_logthetaM s0));
               x_numFacs := to_ptrdiff (mxGetM (fld_a s0));
               x_addBase := addBase;
               x_addC := addC;
               x_addD := addD |} |}.

(** Body of the loop over the samples: the predictions under sample [t]
    added to [preds]. *)
Definition sample_body (x : Extracted) (samples : mxArray Sample)
    (t : nat) (preds : list double) : option (list double) :=
  let* s := mxData samples !! t in
  let logthetaU := mxGetPr (fld_logthetaU s) in
  let logthetaM := mxGetPr (fld_logthetaM s) in
  let a := mxGetPr (fld_a s) in
  let b := mxGetPr (fld_b s) in
  let c := mxGetPr (fld_c s) in
  let d := mxGetPr (fld_d s) in
  let n := Z.to_nat (x_numExamples x) in
  (* Incorporate d offsets into prediction *)
  let* preds :=
    if (0 <? x_KU x) && x_addD x then
      addOffsets (x_users x) (x_items x) (x_KU x) (to_int (x_numExamples x))
                 logthetaU d (x_zU x) preds
    else Some preds in
  (* Incorporate c offsets into prediction *)
  let* preds :=
    if (0 <? x_KM x) && x_addC x then
      addOffsets (x_items x) (x_users x) (x_KM x) (to_int (x_numExamples x))
                 logthetaM c (x_zM x) preds
    else Some preds in
  (* Incorporate MF prediction and global offset into prediction *)
  if x_addBase x then
    if 0 <? x_numFacs x then
      for_range (base_body (x_users x) (x_items x) (x_numFacs x) (x_chi x) a b)
                0 n preds
    else
      for_range (fun e preds => add_at e (x_chi x) preds) 0 n preds
  else Some preds.

(** The sum of the predictions under all samples: the state of [preds]
    when the loop over the samples ends. *)
Definition accumulate (inp : MexInput) : option (list double) :=
  let* x := extract inp in
  let samples := prhs2 inp in
  let numSamples := numSamples_of samples in
  (* New array auto-initialized to zeros *)
  let preds := replicate (Z.to_nat (x_numExamples x)) dzero in
  for_range (sample_body x samples) 0 (Z.to_nat numSamples) preds.

(** The output [plhs[0]] of a call. *)
Definition mexFunction (inp : MexInput) : option (list double) :=
  let* preds := accumulate inp in
  let numSamples := numSamples_of (prhs2 inp) in
  if 1 <? numSamples then
    (* Average over all sample predictions *)
    for_range (div_body numSamples) 0 (Z.to_nat (mxGetM (prhs0 inp))) preds
  else Some preds.

End Predict.

(** ** Slot-wise reading of the loops

    Every loop over the examples reads and writes slot [e] of [preds] in
    iteration [e] only.  The definitions below give the effect of each loop
    on one slot, as a function of that slot and of the example's own
    entries in the index arrays. *)

Section SlotDefs.
Context {A : Arith}.

(** An iteration that reads and writes slot [e] of [preds] only. *)
Definition slot_update (g : double -> option double) (e : nat)
    (preds : list double) : option (list double) :=
  let* p := preds !! e in
  let* y := g p in
  Some (<[e := y]> preds).

(** The effect on slot [j] of a loop over the slots below [n]. *)
Definition stage (n j : nat) (g : double -> option double)
    (o : option double) : option double :=
  if decide (j < n)%nat then let* p := o in g p else o.

(** [p + x] for a term [x] whose reads may fail. *)
Definition add_opt (ox : option double) (p : double) : option double :=
  let* x := ox in Some (dadd p x).

(** The entries of one example in the index arrays ([None]: outside the
    array; for the topics, outer [None]: the array is absent). *)
Record Dyad : Type := MkDyad {
  dy_user : option Z;
  dy_item : option Z;
  dy_zU : option (option Z);
  dy_zM : option (option Z)
}.

Definition dyad_of (x : Extracted) (e : nat) : Dyad :=
  {| dy_user := x_users x !! e;
     dy_item := x_items x !! e;
     dy_zU := option_map (fun z : list Z => z !! e) (x_zU x);
     dy_zM := option_map (fun z : list Z => z !! e) (x_zM x) |}.

(** The term [d[(items[e]-1)*KU + (zU[e]-1)]]. *)
Definition known_term (oit oz : option Z) (KU : Z) (d : list double)
    : option double :=
  let* it := oit in
  let* z := oz in
  rd d (wrap32 (wrap32 (wrap32 (it - 1) * wrap32 KU) + wrap32 (z - 1))).

(** The term [d[(items[e]-1)*KU]]. *)
Definition single_term (oit : option Z) (KU : Z) (d : list double)
    : option double :=
  let* it := oit in
  rd d (wrap32 (wrap32 (it - 1) * wrap32 KU)).

(** The inner loop of the integration, on the slot it updates. *)
Fixpoint acc_terms (d logthetaU : list double) (dPtr logthetaPtr : Z)
    (i count : nat) (p : double) : option double :=
  match count with
  | O => Some p
  | Datatypes.S k =>
      let* dv := rd d (dPtr + Z.of_nat i) in
      let* lv := rd logthetaU (logthetaPtr + Z.of_nat i) in
      acc_terms d logthetaU dPtr logthetaPtr (Datatypes.S i) k
                (dadd p (dmul dv (dexp lv)))
  end.

Definition integrate_slot (ou oit : option Z) (KU : Z)
    (logthetaU d : list double) (p : double) : option double :=
  let* u := ou in
  let* it := oit in
  acc_terms d logthetaU
            (wrap32 (wrap32 (it - 1) * wrap32 KU))
            (wrap32 (wrap32 (u - 1) * wrap32 KU))
            0 (Z.to_nat KU) p.

(** One iteration of [addOffsets], whichever branch is taken. *)
Definition offset_slot (ou oit : option Z) (oz : option (option Z)) (KU : Z)
    (logthetaU d : list double) : double -> option double :=
  match oz with
  | Some oz => add_opt (known_term oit oz KU d)
  | None =>
      if 1 <? KU then integrate_slot ou oit KU logthetaU d
      else add_opt (single_term oit KU d)
  end.

(** The term [chi + ddot(...)]. *)
Definition base_term (ou oit : option Z) (numFacs : Z) (chi : double)
    (a b : list double) : option double :=
  let* u := ou in
  let* it := oit in
  let* dot := ddot numFacs a (numFacs * wrap32 (u - 1))
                           b (numFacs * wrap32 (it - 1)) in
  Some (dadd chi dot).

(** Number of iterations of the loops of [addOffsets], whose bound is the
    [int] that [mexFunction] passes. *)
Definition offset_count (sc : Scalars) : nat :=
  Z.to_nat (to_mwSize (to_int (x_numExamples sc))).

(** One sample on one slot. *)
Definition sample_slot (sc : Scalars) (s : Sample) (dy : Dyad) (j : nat)
    (o : option double) : option double :=
  let o :=
    if (0 <? x_KU sc) && x_addD sc then
      stage (offset_count sc) j
            (offset_slot (dy_user dy) (dy_item dy) (dy_zU dy) (x_KU sc)
                         (mxGetPr (fld_logthetaU s)) (mxGetPr (fld_d s))) o
    else o in
  let o :=
    if (0 <? x_KM sc) && x_addC sc then
      stage (offset_count sc) j
            (offset_slot (dy_item dy) (dy_user dy) (dy_zM dy) (x_KM sc)
                         (mxGetPr (fld_logthetaM s)) (mxGetPr (fld_c s))) o
    else o in
  if x_addBase sc then
    if 0 <? x_numFacs sc then
      stage (Z.to_nat (x_numExamples sc)) j
            (add_opt (base_term (dy_user dy) (dy_item dy) (x_numFacs sc)
                                (x_chi sc) (mxGetPr (fld_a s))
                                (mxGetPr (fld_b s)))) o
    else
      stage (Z.to_nat (x_numExamples sc)) j (add_opt (Some (x_chi sc))) o
  else o.

(** The loop over the samples on one slot. *)
Fixpoint samples_slot (sc : Scalars) (samples : list Sample) (dy : Dyad)
    (j t count : nat) (o : option double) : option double :=
  match count with
  | O => o
  | Datatypes.S k =>
      let* s := samples !! t in
      samples_slot sc samples dy j (Datatypes.S t) k (sample_slot sc s dy j o)
  end.

(** The whole call on one slot. *)
Definition output_slot (sc : Scalars) (samples : mxArray Sample) (dy : Dyad)
    (j : nat) : option double :=
  let numSamples := numSamples_of samples in
  let n := Z.to_nat (x_numExamples sc) in
  let o := samples_slot sc (mxData samples) dy j 0 (Z.to_nat numSamples)
             (replicate n dzero !! j) in
  if 1 <? numSamples then
    stage n j (fun p => Some (ddiv p (of_mwSize numSamples))) o
  else o.

(** ** Calls that differ in some arguments *)

Definition with_dyads (inp : MexInput) (users items : mxArray Z) : MexInput :=
  MkInput users items (prhs2 inp) (prhs3 inp) (prhs4 inp) (prhs5 inp).

Definition with_samples (inp : MexInput) (samples : mxArray Sample)
    : MexInput :=
  MkInput (prhs0 inp) (prhs1 inp) samples (prhs3 inp) (prhs4 inp) (prhs5 inp).

Definition with_zU (inp : MexInput) (zU : mxArray Z) : MexInput :=
  MkInput (prhs0 inp) (prhs1 inp) (prhs2 inp) zU (prhs4 inp) (prhs5 inp).

(** The topic of example [e] in a topic array: absent array, or the entry. *)
Definition topic_at (z : mxArray Z) (e : nat) : option (option Z) :=
  option_map (fun l : list Z => l !! e) (mxGetData z).

(** ** The specification's reading of the offset tables *)

(** The sum of a list of terms. *)
Definition dsum (terms : list double) : double := fold_right dadd dzero terms.


(** [offset[col, row]]: the entry of a [K]-row table for the entity [col]
    and the topic [row], both counted from 1. *)
Definition entry (tbl : list double) (K col row : Z) : option double :=
  rd tbl ((col - 1) * K + (row - 1)).

(** [f i, f (i+1), ..., f (i+count-1)], when all are defined. *)
Fixpoint collect {T : Type} (f : nat -> option T) (i count : nat)
    : option (list T) :=
  match count with
  | O => Some []
  | Datatypes.S k =>
      let* y := f i in
      let* ys := collect f (Datatypes.S i) k in
      Some (y :: ys)
  end.

(** The products [offset[sec, k] * exp(logTheta[prim, k])], [k = 1..K]. *)
Definition expectation_terms (offset logTheta : list double) (K sec prim : Z)
    : option (list double) :=
  collect (fun k : nat =>
             let* o := entry offset K sec (Z.of_nat k + 1) in
             let* l := entry logTheta K prim (Z.of_nat k + 1) in
             Some (dmul o (dexp l)))
          0 (Z.to_nat K).

(** A table of [K] rows holds the column of entity [col]; tables are
    addressed with 32-bit offsets. *)
Definition in_table (tbl : list double) (K col : Z) : Prop :=
  1 <= col /\ col * K <= Z.of_nat (length tbl) /\
  Z.of_nat (length tbl) <= 2 ^ 32.

(** ** The specification's reading of a sample's contribution *)

(** "add sample_t.chi + dot(a_t[:,rowIdx[e]], b_t[:,colIdx[e]])": the
    global offset is the one of the sample [s] itself. *)
Definition spec_base_term (s : Sample) (u it : Z) : option double :=
  let* chi := mxGetPr (fld_chi s) !! 0%nat in
  let F := mxGetM (fld_a s) in
  let* dot := ddot F (mxGetPr (fld_a s)) (F * (u - 1))
                     (mxGetPr (fld_b s)) (F * (it - 1)) in
  Some (dadd chi dot).

(** "T independent predict() calls each with a single sample". *)
Definition single_sample_calls (inp : MexInput) : list (option (list double)) :=
  map (fun s => mexFunction (with_samples inp (MxArray 1 1 [s])))
      (mxData (prhs2 inp)).

(** "the elementwise average" of output vectors of length [n]. *)
Definition elementwise_average (n : nat) (outs : list (list double))
    : list double :=
  map (fun p => ddiv p (of_mwSize (Z.of_nat (length outs))))
      (fold_left (zip_with dadd) outs (replicate n dzero)).

(** ** Samples of one shape *)

(** A sample that declares the dimensions and the global offset of [s0].
    [mexFunction] reads these from the first sample only. *)
Definition same_shape (s0 s : Sample) : Prop :=
  mxGetPr (fld_chi s) !! 0%nat = mxGetPr (fld_chi s0) !! 0%nat /\
  mxGetM (fld_logthetaU s) = mxGetM (fld_logthetaU s0) /\
  mxGetM (fld_logthetaM s) = mxGetM (fld_logthetaM s0) /\
  mxGetM (fld_a s) = mxGetM (fld_a s0).

(** An effect on a slot that adds to it a quantity of its own. *)
Definition additive (F : option double -> option double) : Prop :=
  F None = None /\
  forall p, F (Some p) = let* c := F (Some dzero) in Some (dadd p c).

End SlotDefs.

(** ** IEEE binary64 *)

(** A non-zero number or an infinity of sign [sx], in the specification of
    floats of the standard library. *)
Definition sf_nonzero (sx : bool) (f : spec_float) : Prop :=
  match f with
  | S754_finite s _ _ => s = sx
  | S754_infinity s => s = sx
  | _ => False
  end.

(** Stands for [exp] in worked examples where no exponential is taken. *)
Definition no_exp : float -> float := fun x => x.

(** ** Inputs inside their tables *)

Section RangeDefs.
Context {A : Arith}.

(** The reads of one iteration of [addOffsets] stay inside the tables:
    the topic is one of the [KU] topics, the columns exist. *)
Definition offset_in_range (u it : Z) (oz : option (option Z)) (KU : Z)
    (logthetaU d : list double) : Prop :=
  match oz with
  | Some (Some z) => 1 <= z <= KU /\ in_table d KU it
  | Some None => False
  | None =>
      if 1 <? KU then in_table logthetaU KU u /\ in_table d KU it
      else in_table d KU it
  end.

(** The factor vectors of a dyad exist: [u] and [it] are [uint32_t]
    values that name a column of [a] and of [b]. *)
Definition base_in_range (u it numFacs : Z) (a b : list double) : Prop :=
  1 <= u <= 2 ^ 32 /\ u * numFacs <= Z.of_nat (length a) /\
  1 <= it <= 2 ^ 32 /\ it * numFacs <= Z.of_nat (length b).

(** All the reads that sample [s] makes for one dyad stay inside its
    tables, for the contributions that are switched on. *)
Definition sample_in_range (sc : Scalars) (s : Sample) (u it : Z)
    (ozU ozM : option (option Z)) : Prop :=
  ((0 <? x_KU sc) && x_addD sc = true ->
   offset_in_range u it ozU (x_KU sc)
     (mxGetPr (fld_logthetaU s)) (mxGetPr (fld_d s))) /\
  ((0 <? x_KM sc) && x_addC sc = true ->
   offset_in_range it u ozM (x_KM sc)
     (mxGetPr (fld_logthetaM s)) (mxGetPr (fld_c s))) /\
  (x_addBase sc = true -> 0 < x_numFacs sc ->
   base_in_range u it (x_numFacs sc)
     (mxGetPr (fld_a s)) (mxGetPr (fld_b s))).

(** ** More calls that differ in some arguments *)

Definition with_zM (inp : MexInput) (zM : mxArray Z) : MexInput :=
  MkInput (prhs0 inp) (prhs1 inp) (prhs2 inp) (prhs3 inp) zM (prhs5 inp).

Definition with_add (inp : MexInput) (add : mxArray bool) : MexInput :=
  MkInput (prhs0 inp) (prhs1 inp) (prhs2 inp) (prhs3 inp) (prhs4 inp) add.

(** The roles of users and items exchanged: in a sample, ... *)
Definition swap_sample (s : Sample) : Sample :=
  {| fld_chi := fld_chi s;
     fld_logthetaU := fld_logthetaM s;
     fld_logthetaM := fld_logthetaU s;
     fld_a := fld_b s;
     fld_b := fld_a s;
     fld_c := fld_d s;
     fld_d := fld_c s |}.

(** ... and in a call ([add] is [addBase, addCoffsets, addDoffsets]). *)
Definition swap_roles (inp : MexInput) : MexInput :=
  {| prhs0 := prhs1 inp;
     prhs1 := prhs0 inp;
     prhs2 := MxArray (mxGetM (prhs2 inp)) (mxGetN (prhs2 inp))
                      (map swap_sample (mxData (prhs2 inp)));
     prhs3 := prhs4 inp;
     prhs4 := prhs3 inp;
     prhs5 := MxArray (mxGetM (prhs5 inp)) (mxGetN (prhs5 inp))
                match mxData (prhs5 inp) with
                | addBase :: addC :: addD :: rest =>
                    addBase :: addD :: addC :: rest
                | add => add
                end |}.

(** ** The three contributions of a sample, on one slot *)

Definition d_stage (sc : Scalars) (s : Sample) (dy : Dyad) (j : nat)
    (o : option double) : option double :=
  if (0 <? x_KU sc) && x_addD sc then
    stage (offset_count sc) j
          (offset_slot (dy_user dy) (dy_item dy) (dy_zU dy) (x_KU sc)
                       (mxGetPr (fld_logthetaU s)) (mxGetPr (fld_d s))) o
  else o.

Definition c_stage (sc : Scalars) (s : Sample) (dy : Dyad) (j : nat)
    (o : option double) : option double :=
  if (0 <? x_KM sc) && x_addC sc then
    stage (offset_count sc) j
          (offset_slot (dy_item dy) (dy_user dy) (dy_zM dy) (x_KM sc)
                       (mxGetPr (fld_logthetaM s)) (mxGetPr (fld_c s))) o
  else o.

Definition base_stage (sc : Scalars) (s : Sample) (dy : Dyad) (j : nat)
    (o : option double) : option double :=
  if x_addBase sc then
    if 0 <? x_numFacs sc then
      stage (Z.to_nat (x_numExamples sc)) j
            (add_opt (base_term (dy_user dy) (dy_item dy) (x_numFacs sc)
                                (x_chi sc) (mxGetPr (fld_a s))
                                (mxGetPr (fld_b s)))) o
    else
      stage (Z.to_nat (x_numExamples sc)) j (add_opt (Some (x_chi sc))) o
  else o.

(** The flags array [[addBase, addCoffsets, addDoffsets]]. *)
Definition flags3 (addBase addC addD : bool) : mxArray bool :=
  MxArray 1 3 [addBase; addC; addD].

End RangeDefs.

(** ** Concrete inputs *)

(** A column vector, a matrix with a given number of rows, an empty array. *)
Definition vec {T : Type} (l : list T) : mxArray T :=
  MxArray (Z.of_nat (length l)) 1 l.

Definition mat {T : Type} (rows : Z) (l : list T) : mxArray T :=
  MxArray rows (if rows =? 0 then 0 else Z.of_nat (length l) / rows) l.

Definition empty {T : Type} : mxArray T := MxArray 0 0 [].

(** The scenario of the specification: two dyads, one sample with one
    factor, no topics. *)
Definition scenario_sample (e : float -> float) : @Sample (binary64 e) :=
  @MkSample (binary64 e)
    (mat 1 [1.0%float]) empty empty
    (mat 1 [2.0%float; 3.0%float]) (mat 1 [5.0%float]) empty empty.

Definition scenario_input (e : float -> float) : @MexInput (binary64 e) :=
  @MkInput (binary64 e)
    (vec [1; 2]) (vec [1; 1]) (vec [scenario_sample e]) empty empty
    (vec [true; false; false]).

(** Two samples that differ in [chi] only (1.0 and 3.0), one dyad, one
    factor with [a = 2.0] and [b = 5.0]. *)
Definition chi_sample (e : float -> float) (chi : float)
    : @Sample (binary64 e) :=
  @MkSample (binary64 e)
    (mat 1 [chi]) empty empty (mat 1 [2.0%float]) (mat 1 [5.0%float])
    empty empty.

Definition chi_batch (e : float -> float) (add : list bool)
    : @MexInput (binary64 e) :=
  @MkInput (binary64 e)
    (vec [1]) (vec [1])
    (vec [chi_sample e 1.0%float; chi_sample e 3.0%float]) empty empty
    (vec add).

Definition chi_input (e : float -> float) : @MexInput (binary64 e) :=
  chi_batch e [true; false; false].

(** Integer-valued samples with two row topics and one column topic, for
    two users and two items; [logthetaU] holds base-2 logarithms. *)
Definition topic_sample (chi : Z) : @Sample exactZ :=
  @MkSample exactZ
    (mat 1 [chi])
    (mat 2 [1; 0; 0; 2]) (mat 1 [0; 0])
    (mat 1 [2; 3]) (mat 1 [5; 7])
    (mat 1 [100; 200]) (mat 2 [3; 5; 7; 1]).

Definition topic_input (zU : mxArray Z) (add : list bool) : @MexInput exactZ :=
  @MkInput exactZ
    (vec [1; 2]) (vec [2; 1]) (vec [topic_sample 10; topic_sample 10])
    zU empty (vec add).

(** A sample with a single row topic. *)
Definition single_topic_sample : @Sample exactZ :=
  @MkSample exactZ
    (mat 1 [10]) (mat 1 [0; 0]) empty empty empty empty (mat 1 [4; 6]).

Definition single_topic_input : @MexInput exactZ :=
  @MkInput exactZ
    (vec [1; 2]) (vec [2; 1]) (vec [single_topic_sample]) empty empty
    (vec [false; false; true]).

(** A bias-only sample: no factors, no topics. *)
Definition bias_sample : @Sample exactZ :=
  @MkSample exactZ (mat 1 [10]) empty empty empty empty empty empty.

Definition bias_input : @MexInput exactZ :=
  @MkInput exactZ
    (vec [1; 2]) (vec [2; 1]) (vec [bias_sample]) empty empty
    (vec [true; false; false]).

(** A bias-only call in binary64: three dyads, one sample, [chi = 2.5]. *)
Definition bias_sample64 (e : float -> float) : @Sample (binary64 e) :=
  @MkSample (binary64 e)
    (mat 1 [2.5%float]) empty empty empty empty empty empty.

Definition bias_input64 (e : float -> float) : @MexInput (binary64 e) :=
  @MkInput (binary64 e)
    (vec [3; 1; 2]) (vec [1; 1; 4]) (vec [bias_sample64 e]) empty empty
    (vec [true; false; false]).

(** ** More concrete inputs *)

(** One integer-valued sample, two dyads, with given topics and flags. *)
Definition topic_input1 (zU : mxArray Z) (add : mxArray bool)
    : @MexInput exactZ :=
  @MkInput exactZ
    (vec [1; 2]) (vec [2; 1]) (vec [topic_sample 10]) zU empty add.


(** * Loops *)

Section Loops.
Context {S : Type}.
Implicit Types (f g : nat -> S -> option S) (P : S -> Prop).

(** Two loops whose bodies agree on the states an invariant describes. *)
Lemma for_range_ext_inv P f g n : forall e0 st,
  (forall e st, (e0 <= e < e0 + n)%nat -> P st -> f e st = g e st) ->
  (forall e st st', (e0 <= e < e0 + n)%nat -> P st -> f e st = Some st' -> P st') ->
  P st -> for_range f e0 n st = for_range g e0 n st.
Proof.
  induction n as [|n IH]; intros e0 st Hfg Hinv HP; [reflexivity|].
  cbn [for_range]. rewrite <- (Hfg e0 st) by (auto; lia).
  destruct (f e0 st) as [st'|] eqn:E; [|reflexivity].
  apply IH.
  - intros e st1 He. apply Hfg. lia.
  - intros e st1 st2 He. apply Hinv. lia.
  - apply (Hinv e0 st st'); auto; lia.
Qed.

Lemma for_range_ext f g n e0 st :
  (forall e st, (e0 <= e < e0 + n)%nat -> f e st = g e st) ->
  for_range f e0 n st = for_range g e0 n st.
Proof.
  intros H. apply (for_range_ext_inv (fun _ => True)); auto.
Qed.

(** An invariant of the body is an invariant of the loop. *)
Lemma for_range_inv P f n : forall e0 st st',
  (forall e st st', (e0 <= e < e0 + n)%nat -> P st -> f e st = Some st' -> P st') ->
  P st -> for_range f e0 n st = Some st' -> P st'.
Proof.
  induction n as [|n IH]; intros e0 st st' Hinv HP; cbn [for_range].
  - intros [= <-]. exact HP.
  - destruct (f e0 st) as [st1|] eqn:E; [|discriminate].
    apply IH.
    + intros e st2 st3 He. apply Hinv. lia.
    + apply (Hinv e0 st st1); auto; lia.
Qed.

End Loops.

(** * Slot-wise reading of the loops over the examples *)

Section Slots.
Context {A : Arith}.
Implicit Types (preds : list double) (p : double) (e j : nat).

Lemma slot_update_length g e preds preds' :
  slot_update g e preds = Some preds' -> length preds' = length preds.
Proof.
  unfold slot_update. destruct (preds !! e); [|discriminate].
  destruct (g d); [|discriminate]. intros [= <-]. apply length_insert.
Qed.

Lemma for_range_slot_length (g : nat -> double -> option double) n e0
    preds preds' :
  for_range (fun e => slot_update (g e) e) e0 n preds = Some preds' ->
  length preds' = length preds.
Proof.
  apply (for_range_inv (fun st => length st = length preds)); [|reflexivity].
  intros e st st' _ Hl Hs. rewrite <- Hl. eapply slot_update_length; eauto.
Qed.

Lemma for_range_slot_lookup (g : nat -> double -> option double) n :
  forall e0 preds preds',
  for_range (fun e => slot_update (g e) e) e0 n preds = Some preds' ->
  forall j, preds' !! j =
            if decide (e0 <= j < e0 + n)%nat
            then let* p := preds !! j in g j p
            else preds !! j.
Proof.
  induction n as [|n IH]; intros e0 preds preds'; cbn [for_range].
  - intros [= <-] j. destruct (decide _); [lia|reflexivity].
  - unfold slot_update at 1.
    destruct (preds !! e0) as [p|] eqn:Ep; [|discriminate].
    destruct (g e0 p) as [y|] eqn:Ey; [|discriminate].
    intros H j. rewrite (IH _ _ _ H j).
    apply lookup_lt_Some in Ep as Hlt.
    destruct (decide (j = e0)) as [->|Hne].
    + rewrite list_lookup_insert_eq by exact Hlt.
      rewrite Ep, Ey.
      destruct (decide (Datatypes.S e0 <= e0 < Datatypes.S e0 + n)%nat); [lia|].
      destruct (decide (e0 <= e0 < e0 + Datatypes.S n)%nat); [reflexivity|lia].
    + rewrite list_lookup_insert_ne by congruence.
      destruct (decide (Datatypes.S e0 <= j < Datatypes.S e0 + n)%nat);
        destruct (decide (e0 <= j < e0 + Datatypes.S n)%nat);
        try reflexivity; lia.
Qed.

Lemma for_range_slot_total (g : nat -> double -> option double) n :
  forall e0 preds,
  (forall j, (e0 <= j < e0 + n)%nat ->
     exists p y, preds !! j = Some p /\ g j p = Some y) ->
  exists preds', for_range (fun e => slot_update (g e) e) e0 n preds = Some preds'.
Proof.
  induction n as [|n IH]; intros e0 preds Hok; cbn [for_range]; [eauto|].
  destruct (Hok e0) as (p & y & Ep & Ey); [lia|].
  unfold slot_update at 1. rewrite Ep, Ey.
  apply IH. intros j Hj.
  rewrite list_lookup_insert_ne by lia. apply Hok. lia.
Qed.

(** A loop over all the slots that cannot fail is a map. *)
Lemma for_range_slot_map (f : nat -> double -> double) preds :
  for_range (fun e => slot_update (fun p => Some (f e p)) e)
            0 (length preds) preds
  = Some (imap f preds).
Proof.
  destruct (for_range_slot_total (fun e p => Some (f e p)) (length preds) 0 preds)
    as [preds' H].
  { intros j Hj. destruct (lookup_lt_is_Some_2 preds j) as [p Hp]; [lia|]. eauto. }
  rewrite H. f_equal. apply list_eq. intros j.
  rewrite (for_range_slot_lookup _ _ _ _ _ H j), list_lookup_imap.
  destruct (decide _) as [Hj|Hj].
  - destruct (preds !! j); reflexivity.
  - rewrite (lookup_ge_None_2 preds j) by lia. reflexivity.
Qed.

End Slots.

(** * The loop bodies, slot by slot *)

Section Bodies.
Context {A : Arith}.
Implicit Types (preds : list double) (p : double) (e j : nat).

Lemma add_at_slot e v preds :
  add_at e v preds = slot_update (add_opt (Some v)) e preds.
Proof. reflexivity. Qed.

Lemma known_topic_body_slot items KU d zU e preds :
  known_topic_body items KU d zU e preds
  = slot_update (add_opt (known_term (items !! e) (zU !! e) KU d)) e preds.
Proof.
  unfold known_topic_body, slot_update, add_opt, known_term, add_at.
  destruct (items !! e) as [it|]; [|destruct (preds !! e); reflexivity].
  destruct (zU !! e) as [z|]; [|destruct (preds !! e); reflexivity].
  destruct (rd d _); destruct (preds !! e); reflexivity.
Qed.

Lemma single_topic_body_slot items KU d e preds :
  single_topic_body items KU d e preds
  = slot_update (add_opt (single_term (items !! e) KU d)) e preds.
Proof.
  unfold single_topic_body, slot_update, add_opt, single_term, add_at.
  destruct (items !! e) as [it|]; [|destruct (preds !! e); reflexivity].
  destruct (rd d _); destruct (preds !! e); reflexivity.
Qed.

Lemma base_body_slot users items numFacs chi a b e preds :
  base_body users items numFacs chi a b e preds
  = slot_update
      (add_opt (base_term (users !! e) (items !! e) numFacs chi a b)) e preds.
Proof.
  unfold base_body, slot_update, add_opt, base_term, add_at.
  destruct (users !! e) as [u|]; [|destruct (preds !! e); reflexivity].
  destruct (items !! e) as [it|]; [|destruct (preds !! e); reflexivity].
  destruct (ddot _ _ _ _ _); destruct (preds !! e); reflexivity.
Qed.

Lemma div_body_slot numSamples e preds :
  div_body numSamples e preds
  = slot_update (fun p => Some (ddiv p (of_mwSize numSamples))) e preds.
Proof. reflexivity. Qed.

(** The inner loop of the integration accumulates into slot [e]. *)
Lemma inner_loop_slot e d lt dPtr ltPtr k : forall i preds p,
  preds !! e = Some p ->
  for_range (fun i preds =>
      let* dv := rd d (dPtr + Z.of_nat i) in
      let* lv := rd lt (ltPtr + Z.of_nat i) in
      add_at e (dmul dv (dexp lv)) preds) i k preds
  = let* y := acc_terms d lt dPtr ltPtr i k p in Some (<[e := y]> preds).
Proof.
  induction k as [|k IH]; intros i preds p Hp; cbn [for_range acc_terms].
  - rewrite list_insert_id by exact Hp. reflexivity.
  - destruct (rd d _) as [dv|]; [|reflexivity].
    destruct (rd lt _) as [lv|]; [|reflexivity].
    unfold add_at. rewrite Hp.
    rewrite (IH _ _ (dadd p (dmul dv (dexp lv)))).
    + destruct (acc_terms _ _ _ _ _ _ _); [|reflexivity].
      rewrite list_insert_insert_eq. reflexivity.
    + apply list_lookup_insert_eq. eapply lookup_lt_Some; eauto.
Qed.

Lemma inner_loop_outside e d lt dPtr ltPtr k i preds :
  preds !! e = None ->
  for_range (fun i preds =>
      let* dv := rd d (dPtr + Z.of_nat i) in
      let* lv := rd lt (ltPtr + Z.of_nat i) in
      add_at e (dmul dv (dexp lv)) preds) i (Datatypes.S k) preds
  = None.
Proof.
  intros Hp. cbn [for_range].
  destruct (rd d _); [|reflexivity]. destruct (rd lt _); [|reflexivity].
  unfold add_at. rewrite Hp. reflexivity.
Qed.

Lemma integrate_body_slot users items KU lt d e preds :
  1 < KU ->
  integrate_body users items KU lt d e preds
  = slot_update (integrate_slot (users !! e) (items !! e) KU lt d) e preds.
Proof.
  intros HK. unfold integrate_body, slot_update, integrate_slot.
  destruct (Z.to_nat KU) as [|k] eqn:Ek; [lia|].
  destruct (preds !! e) as [p|] eqn:Ep.
  - destruct (users !! e) as [u|]; [|reflexivity].
    destruct (items !! e) as [it|]; [|reflexivity].
    apply inner_loop_slot. exact Ep.
  - destruct (users !! e) as [u|]; [|reflexivity].
    destruct (items !! e) as [it|]; [|reflexivity].
    apply inner_loop_outside. exact Ep.
Qed.

(** [addOffsets] is one loop of slot updates. *)
Lemma addOffsets_slots users items KU numExamples lt d zU preds :
  addOffsets users items KU numExamples lt d zU preds
  = for_range (fun e =>
        slot_update (offset_slot (users !! e) (items !! e)
                       (option_map (fun z : list Z => z !! e) zU) KU lt d) e)
      0 (Z.to_nat (to_mwSize numExamples)) preds.
Proof.
  unfold addOffsets, offset_slot. destruct zU as [z|]; cbn [option_map].
  - apply for_range_ext. intros. apply known_topic_body_slot.
  - destruct (1 <? KU) eqn:HK.
    + apply for_range_ext. intros. apply integrate_body_slot. lia.
    + apply for_range_ext. intros. apply single_topic_body_slot.
Qed.

Lemma addOffsets_length users items KU numExamples lt d zU preds preds' :
  addOffsets users items KU numExamples lt d zU preds = Some preds' ->
  length preds' = length preds.
Proof. rewrite addOffsets_slots. apply for_range_slot_length. Qed.

Lemma addOffsets_lookup users items KU numExamples lt d zU preds preds' :
  addOffsets users items KU numExamples lt d zU preds = Some preds' ->
  forall j,
    preds' !! j
    = stage (Z.to_nat (to_mwSize numExamples)) j
        (offset_slot (users !! j) (items !! j)
           (option_map (fun z : list Z => z !! j) zU) KU lt d)
        (preds !! j).
Proof.
  rewrite addOffsets_slots. intros H j.
  rewrite (for_range_slot_lookup _ _ _ _ _ H j). unfold stage.
  destruct (decide _), (decide _); try reflexivity; lia.
Qed.

(** A loop of slot updates over the slots below [n], on one slot. *)
Lemma loop_stage (g : nat -> double -> option double) n preds preds' :
  for_range (fun e => slot_update (g e) e) 0 n preds = Some preds' ->
  length preds' = length preds /\
  forall j, preds' !! j = stage n j (g j) (preds !! j).
Proof.
  intros H. split; [eapply for_range_slot_length; eauto|].
  intros j. rewrite (for_range_slot_lookup _ _ _ _ _ H j). unfold stage.
  destruct (decide (0 <= j < 0 + n)%nat), (decide (j < n)%nat);
    try reflexivity; lia.
Qed.

Lemma cond_addOffsets (c : bool) users items KU numExamples lt d zU
    preds preds' :
  (if c then addOffsets users items KU numExamples lt d zU preds
   else Some preds) = Some preds' ->
  length preds' = length preds /\
  forall j,
    preds' !! j
    = if c then
        stage (Z.to_nat (to_mwSize numExamples)) j
          (offset_slot (users !! j) (items !! j)
             (option_map (fun z : list Z => z !! j) zU) KU lt d)
          (preds !! j)
      else preds !! j.
Proof.
  destruct c.
  - intros H. split; [eapply addOffsets_length; eauto|].
    apply addOffsets_lookup. exact H.
  - intros [= <-]. split; reflexivity.
Qed.

(** The loop over the examples of one sample, on one slot. *)
Lemma sample_body_lookup (x : Extracted) samples t preds preds' :
  sample_body x samples t preds = Some preds' ->
  exists s, mxData samples !! t = Some s /\
    length preds' = length preds /\
    forall j, preds' !! j = sample_slot x s (dyad_of x j) j (preds !! j).
Proof.
  unfold sample_body. destruct (mxData samples !! t) as [s|]; [|discriminate].
  intros H. exists s. split; [reflexivity|].
  destruct (if (0 <? x_KU x) && x_addD x then _ else _) as [p1|] eqn:E1;
    [|discriminate].
  apply cond_addOffsets in E1 as [L1 K1].
  destruct (if (0 <? x_KM x) && x_addC x then _ else _) as [p2|] eqn:E2;
    [|discriminate].
  apply cond_addOffsets in E2 as [L2 K2].
  assert (length preds' = length p2 /\
          forall j, preds' !! j =
            if x_addBase x then
              if 0 <? x_numFacs x then
                stage (Z.to_nat (x_numExamples x)) j
                  (add_opt (base_term (x_users x !! j) (x_items x !! j)
                              (x_numFacs x) (x_chi x) (mxGetPr (fld_a s))
                              (mxGetPr (fld_b s)))) (p2 !! j)
              else
                stage (Z.to_nat (x_numExamples x)) j
                  (add_opt (Some (x_chi x))) (p2 !! j)
            else p2 !! j) as [L3 K3].
  { destruct (x_addBase x); [|injection H as <-; split; reflexivity].
    destruct (0 <? x_numFacs x).
    - erewrite for_range_ext in H by (intros; apply base_body_slot).
      apply loop_stage in H. exact H.
    - apply (loop_stage (fun _ => add_opt (Some (x_chi x)))) in H. exact H. }
  split; [congruence|].
  intros j. rewrite K3, K2, K1. reflexivity.
Qed.

(** The loop over the samples, on one slot. *)
Lemma samples_loop_lookup (x : Extracted) samples count :
  forall t preds preds',
  for_range (sample_body x samples) t count preds = Some preds' ->
  length preds' = length preds /\
  forall j, preds' !! j
            = samples_slot x (mxData samples) (dyad_of x j) j t count
                (preds !! j).
Proof.
  induction count as [|k IH]; intros t preds preds'; cbn [for_range samples_slot].
  - intros [= <-]. split; reflexivity.
  - destruct (sample_body x samples t preds) as [p1|] eqn:E1; [|discriminate].
    apply sample_body_lookup in E1 as (s & Es & L1 & K1).
    intros H. apply IH in H as [L2 K2]. split; [congruence|].
    intros j. rewrite Es, K2, K1. reflexivity.
Qed.

End Bodies.

(** * [addOffsets] *)

Section Offsets.
Context {A : Arith}.
Implicit Types (preds : list double) (p : double) (e j : nat).

Lemma rd_in_range {T : Type} (l : list T) (i : Z) :
  0 <= i < Z.of_nat (length l) -> exists x, rd l i = Some x.
Proof.
  intros Hi. unfold rd. destruct (Z.ltb_spec i 0); [lia|].
  apply lookup_lt_is_Some_2. lia.
Qed.

Lemma wrap32_small z : 0 <= z < 2 ^ 32 -> wrap32 z = z.
Proof. apply Z.mod_small. Qed.

(** Inside a table, the 32-bit offset of a column is the exact one. *)
Lemma column_offset K col bound :
  0 < K < 2 ^ 31 -> 1 <= col -> col * K <= bound -> bound <= 2 ^ 32 ->
  wrap32 (wrap32 (col - 1) * wrap32 K) = (col - 1) * K /\
  0 <= (col - 1) * K /\ (col - 1) * K + K <= bound.
Proof.
  intros HK Hc Hb Hbound.
  assert (col <= 2 ^ 32) by nia.
  rewrite (wrap32_small (col - 1)) by lia.
  rewrite (wrap32_small K) by lia.
  rewrite wrap32_small by nia. nia.
Qed.

Lemma known_term_entry it z KU d :
  0 < KU < 2 ^ 31 -> in_table d KU it -> 1 <= z <= KU ->
  exists x, entry d KU it z = Some x /\
            known_term (Some it) (Some z) KU d = Some x.
Proof.
  intros HK (Hc & Hb & Hbound) Hz.
  destruct (column_offset KU it _ HK Hc Hb Hbound) as (E & H0 & H1).
  unfold known_term, entry. rewrite E.
  rewrite (wrap32_small (z - 1)) by lia.
  rewrite wrap32_small by lia.
  destruct (rd_in_range d ((it - 1) * KU + (z - 1))) as [x Hx]; [lia|].
  exists x. split; exact Hx.
Qed.

Lemma collect_length {T : Type} (f : nat -> option T) count :
  forall i ys, collect f i count = Some ys -> length ys = count.
Proof.
  induction count as [|k IH]; intros i ys; cbn [collect].
  - intros [= <-]. reflexivity.
  - destruct (f i); [|discriminate].
    destruct (collect f (Datatypes.S i) k) eqn:E; [|discriminate].
    intros [= <-]. cbn. f_equal. eapply IH; eauto.
Qed.

Lemma collect_total {T : Type} (f : nat -> option T) count : forall i,
  (forall m, (i <= m < i + count)%nat -> exists y, f m = Some y) ->
  exists ys, collect f i count = Some ys.
Proof.
  induction count as [|k IH]; intros i Hf; cbn [collect]; [eauto|].
  destruct (Hf i) as [y ->]; [lia|].
  destruct (IH (Datatypes.S i)) as [ys ->]; [intros; apply Hf; lia|]. eauto.
Qed.

Lemma collect_ext {T : Type} (f g : nat -> option T) count : forall i,
  (forall m, (i <= m < i + count)%nat -> f m = g m) ->
  collect f i count = collect g i count.
Proof.
  induction count as [|k IH]; intros i Hfg; cbn [collect]; [reflexivity|].
  rewrite (Hfg i) by lia. rewrite (IH (Datatypes.S i)); [reflexivity|].
  intros; apply Hfg; lia.
Qed.

(** The inner loop adds the products to the slot one after the other. *)
Lemma acc_terms_collect d lt dPtr ltPtr count : forall i p,
  acc_terms d lt dPtr ltPtr i count p
  = let* terms :=
      collect (fun k : nat =>
                 let* dv := rd d (dPtr + Z.of_nat k) in
                 let* lv := rd lt (ltPtr + Z.of_nat k) in
                 Some (dmul dv (dexp lv))) i count in
    Some (fold_left dadd terms p).
Proof.
  induction count as [|k IH]; intros i p; cbn [acc_terms collect].
  - reflexivity.
  - destruct (rd d _) as [dv|]; [|reflexivity].
    destruct (rd lt _) as [lv|]; [|reflexivity].
    rewrite IH. destruct (collect _ _ _); reflexivity.
Qed.

Lemma integrate_slot_terms u it KU lt d p :
  1 < KU < 2 ^ 31 -> in_table lt KU u -> in_table d KU it ->
  exists terms,
    expectation_terms d lt KU it u = Some terms /\
    integrate_slot (Some u) (Some it) KU lt d p
    = Some (fold_left dadd terms p).
Proof.
  intros HK (Hu & Hub & Hul) (Hi & Hib & Hil).
  destruct (column_offset KU u _ ltac:(lia) Hu Hub Hul) as (Eu & Hu0 & Hu1).
  destruct (column_offset KU it _ ltac:(lia) Hi Hib Hil) as (Ei & Hi0 & Hi1).
  unfold integrate_slot, expectation_terms. rewrite Eu, Ei, acc_terms_collect.
  assert (collect (fun k : nat =>
              let* dv := rd d ((it - 1) * KU + Z.of_nat k) in
              let* lv := rd lt ((u - 1) * KU + Z.of_nat k) in
              Some (dmul dv (dexp lv))) 0 (Z.to_nat KU)
          = collect (fun k : nat =>
              let* o := entry d KU it (Z.of_nat k + 1) in
              let* l := entry lt KU u (Z.of_nat k + 1) in
              Some (dmul o (dexp l))) 0 (Z.to_nat KU)) as ->.
  { apply collect_ext. intros m Hm. unfold entry.
    replace (Z.of_nat m + 1 - 1) with (Z.of_nat m) by lia. reflexivity. }
  destruct (collect_total (fun k : nat =>
              let* o := entry d KU it (Z.of_nat k + 1) in
              let* l := entry lt KU u (Z.of_nat k + 1) in
              Some (dmul o (dexp l))) (Z.to_nat KU) 0) as [terms Ht].
  { intros m Hm. unfold entry.
    destruct (rd_in_range d ((it - 1) * KU + (Z.of_nat m + 1 - 1)))
      as [o ->]; [lia|].
    destruct (rd_in_range lt ((u - 1) * KU + (Z.of_nat m + 1 - 1)))
      as [l ->]; [lia|].
    eauto. }
  exists terms. rewrite Ht. split; reflexivity.
Qed.

End Offsets.

(** * Properties of [addOffsets] *)

Section OffsetClaims.
Context {A : Arith}.
Implicit Types (preds : list double) (p : double) (e j : nat).

Lemma to_mwSize_int n : 0 <= n < 2 ^ 31 -> to_mwSize n = n.
Proof. intros H. apply Z.mod_small. lia. Qed.

(** In exact arithmetic, adding terms one after the other adds their sum. *)
Lemma fold_left_dsum (terms : list double) :
  (forall x y z, dadd (dadd x y) z = dadd x (dadd y z)) ->
  (forall x, dadd x dzero = x) ->
  forall p, fold_left dadd terms p = dadd p (dsum terms).
Proof.
  intros Hassoc Hzero. induction terms as [|t ts IH]; intros p; cbn.
  - symmetry. apply Hzero.
  - rewrite IH, Hassoc. reflexivity.
Qed.

(** C4: with the topic assignments [zU] given, [addOffsets] succeeds on
    in-range inputs and adds to the slot of every example [e] exactly the
    table entry [d[items[e], zU[e]]] (column picked by the secondary index,
    row by the assigned topic); the result is the same whatever the
    [logthetaU] matrix (and the primary index array) holds, so neither is
    consulted. *)
Theorem C4_known_topics_add_table_entry
    (items : list Z) (KU numExamples : Z) (d : list double) (zU : list Z)
    preds :
  0 < KU < 2 ^ 31 ->
  0 <= numExamples < 2 ^ 31 ->
  length preds = Z.to_nat numExamples ->
  (forall e, (e < Z.to_nat numExamples)%nat ->
     exists it z, items !! e = Some it /\ zU !! e = Some z /\
                  in_table d KU it /\ 1 <= z <= KU) ->
  exists preds',
    (forall users logthetaU,
       addOffsets users items KU numExamples logthetaU d (Some zU) preds
       = Some preds') /\
    length preds' = length preds /\
    forall e it z p,
      items !! e = Some it -> zU !! e = Some z -> preds !! e = Some p ->
      exists x, entry d KU it z = Some x /\ preds' !! e = Some (dadd p x).
Proof.
  intros HK HN Hlen Hin.
  pose (g := fun e => add_opt (known_term (items !! e) (zU !! e) KU d)).
  assert (Hslots : forall users logthetaU,
             addOffsets users items KU numExamples logthetaU d (Some zU) preds
             = for_range (fun e => slot_update (g e) e) 0
                 (Z.to_nat numExamples) preds).
  { intros. rewrite addOffsets_slots, to_mwSize_int by exact HN. reflexivity. }
  destruct (for_range_slot_total g (Z.to_nat numExamples) 0 preds)
    as [preds' Hrun].
  { intros j Hj. destruct (Hin j) as (it & z & Hit & Hz & Ht & Hzr); [lia|].
    destruct (lookup_lt_is_Some_2 preds j) as [p Hp]; [lia|].
    destruct (known_term_entry it z KU d HK Ht Hzr) as (x & _ & Hx).
    exists p, (dadd p x). split; [exact Hp|].
    unfold g, add_opt. rewrite Hit, Hz, Hx. reflexivity. }
  exists preds'. split; [|split].
  - intros. rewrite Hslots. exact Hrun.
  - eapply for_range_slot_length; eauto.
  - intros e it z p Hit Hz Hp.
    apply lookup_lt_Some in Hp as Hlt.
    destruct (Hin e) as (it' & z' & Hit' & Hz' & Ht & Hzr); [lia|].
    assert (it' = it) as -> by congruence. assert (z' = z) as -> by congruence.
    destruct (known_term_entry it z KU d HK Ht Hzr) as (x & Hentry & Hx).
    exists x. split; [exact Hentry|].
    rewrite (for_range_slot_lookup _ _ _ _ _ Hrun e).
    destruct (decide _); [|lia].
    rewrite Hp. unfold g, add_opt. rewrite Hit, Hz, Hx. reflexivity.
Qed.

(** C3: with no topic assignments and [KU > 1], [addOffsets] succeeds on
    in-range inputs and adds to the slot of every example [e] the products
    [d[items[e], k] * exp(logthetaU[users[e], k])] for [k = 1..KU], one
    after the other; the exponentials are used as they are, nothing
    renormalizes them.  Where addition is associative with [0] as unit
    (real arithmetic), that is the slot plus the sum of the products. *)
Theorem C3_integrate_out_adds_expectation
    (users items : list Z) (KU numExamples : Z) (logthetaU d : list double)
    preds :
  1 < KU < 2 ^ 31 ->
  0 <= numExamples < 2 ^ 31 ->
  length preds = Z.to_nat numExamples ->
  (forall e, (e < Z.to_nat numExamples)%nat ->
     exists u it, users !! e = Some u /\ items !! e = Some it /\
                  in_table logthetaU KU u /\ in_table d KU it) ->
  exists preds',
    addOffsets users items KU numExamples logthetaU d None preds = Some preds' /\
    length preds' = length preds /\
    forall e u it p,
      users !! e = Some u -> items !! e = Some it -> preds !! e = Some p ->
      exists terms,
        expectation_terms d logthetaU KU it u = Some terms /\
        length terms = Z.to_nat KU /\
        preds' !! e = Some (fold_left dadd terms p) /\
        ((forall x y z, dadd (dadd x y) z = dadd x (dadd y z)) ->
         (forall x, dadd x dzero = x) ->
         preds' !! e = Some (dadd p (dsum terms))).
Proof.
  intros HK HN Hlen Hin.
  pose (g := fun e => integrate_slot (users !! e) (items !! e) KU logthetaU d).
  assert (Hslots :
      addOffsets users items KU numExamples logthetaU d None preds
      = for_range (fun e => slot_update (g e) e) 0 (Z.to_nat numExamples) preds).
  { rewrite addOffsets_slots, to_mwSize_int by exact HN.
    unfold offset_slot, g; cbn [option_map].
    destruct (Z.ltb_spec 1 KU); [reflexivity|lia]. }
  destruct (for_range_slot_total g (Z.to_nat numExamples) 0 preds)
    as [preds' Hrun].
  { intros j Hj. destruct (Hin j) as (u & it & Hu & Hit & Htu & Hti); [lia|].
    destruct (lookup_lt_is_Some_2 preds j) as [p Hp]; [lia|].
    destruct (integrate_slot_terms u it KU logthetaU d p HK Htu Hti)
      as (terms & _ & Hx).
    exists p, (fold_left dadd terms p). split; [exact Hp|].
    unfold g. rewrite Hu, Hit. exact Hx. }
  exists preds'. split; [|split].
  - rewrite Hslots. exact Hrun.
  - eapply for_range_slot_length; eauto.
  - intros e u it p Hu Hit Hp.
    apply lookup_lt_Some in Hp as Hlt.
    destruct (Hin e) as (u' & it' & Hu' & Hit' & Htu & Hti); [lia|].
    assert (u' = u) as -> by congruence. assert (it' = it) as -> by congruence.
    destruct (integrate_slot_terms u it KU logthetaU d p HK Htu Hti)
      as (terms & Hterms & Hx).
    assert (Hslot : preds' !! e = Some (fold_left dadd terms p)).
    { rewrite (for_range_slot_lookup _ _ _ _ _ Hrun e).
      destruct (decide _); [|lia].
      rewrite Hp. unfold g. rewrite Hu, Hit. exact Hx. }
    exists terms. split; [exact Hterms|]. split; [|split].
    + unfold expectation_terms in Hterms. eapply collect_length; eauto.
    + exact Hslot.
    + intros Hassoc Hzero. rewrite Hslot, fold_left_dsum by assumption.
      reflexivity.
Qed.

End OffsetClaims.

(** * [mexFunction] *)

Section Mex.
Context {A : Arith}.
Implicit Types (preds : list double) (p : double) (e j : nat)
  (inp : MexInput).

Lemma for_range_id {S : Type} (f : nat -> S -> option S) n : forall e0 st,
  (forall e, (e0 <= e < e0 + n)%nat -> f e st = Some st) ->
  for_range f e0 n st = Some st.
Proof.
  induction n as [|n IH]; intros e0 st Hf; cbn [for_range]; [reflexivity|].
  rewrite Hf by lia. apply IH. intros; apply Hf; lia.
Qed.

(** What [extract] returns when the reads before the loop succeed. *)
Lemma extract_Some inp s0 chi addBase addC addD :
  mxData (prhs2 inp) !! 0%nat = Some s0 ->
  mxGetPr (fld_chi s0) !! 0%nat = Some chi ->
  mxData (prhs5 inp) !! 0%nat = Some addBase ->
  mxData (prhs5 inp) !! 1%nat = Some addC ->
  mxData (prhs5 inp) !! 2%nat = Some addD ->
  extract inp
  = Some {| x_users := mxData (prhs0 inp);
            x_items := mxData (prhs1 inp);
            x_zU := mxGetData (prhs3 inp);
            x_zM := mxGetData (prhs4 inp);
            x_scalars :=
              {| x_numExamples := mxGetM (prhs0 inp);
                 x_chi := chi;
                 x_KU := to_int (mxGetM (fld_logthetaU s0));
                 x_KM := to_int (mxGetM (fld_logthetaM s0));
                 x_numFacs := to_ptrdiff (mxGetM (fld_a s0));
                 x_addBase := addBase;
                 x_addC := addC;
                 x_addD := addD |} |}.
Proof.
  intros H0 Hchi Hb Hc Hd. unfold extract. rewrite H0, Hchi, Hb, Hc, Hd.
  reflexivity.
Qed.

Lemma extract_inv inp x :
  extract inp = Some x ->
  exists s0 chi addBase addC addD,
    mxData (prhs2 inp) !! 0%nat = Some s0 /\
    mxGetPr (fld_chi s0) !! 0%nat = Some chi /\
    mxData (prhs5 inp) !! 0%nat = Some addBase /\
    mxData (prhs5 inp) !! 1%nat = Some addC /\
    mxData (prhs5 inp) !! 2%nat = Some addD /\
    x = {| x_users := mxData (prhs0 inp);
           x_items := mxData (prhs1 inp);
           x_zU := mxGetData (prhs3 inp);
           x_zM := mxGetData (prhs4 inp);
           x_scalars :=
             {| x_numExamples := mxGetM (prhs0 inp);
                x_chi := chi;
                x_KU := to_int (mxGetM (fld_logthetaU s0));
                x_KM := to_int (mxGetM (fld_logthetaM s0));
                x_numFacs := to_ptrdiff (mxGetM (fld_a s0));
                x_addBase := addBase;
                x_addC := addC;
                x_addD := addD |} |}.
Proof.
  unfold extract.
  destruct (mxData (prhs2 inp) !! 0%nat) as [s0|] eqn:E0; [|discriminate].
  destruct (mxGetPr (fld_chi s0) !! 0%nat) as [chi|] eqn:E1; [|discriminate].
  destruct (mxData (prhs5 inp) !! 0%nat) as [ab|] eqn:E2; [|discriminate].
  destruct (mxData (prhs5 inp) !! 1%nat) as [ac|] eqn:E3; [|discriminate].
  destruct (mxData (prhs5 inp) !! 2%nat) as [ad|] eqn:E4; [|discriminate].
  intros [= <-]. exists s0, chi, ab, ac, ad. repeat split; assumption.
Qed.

(** The accumulator keeps the length of the batch. *)
Lemma accumulate_length inp sum :
  accumulate inp = Some sum ->
  length sum = Z.to_nat (mxGetM (prhs0 inp)).
Proof.
  unfold accumulate. destruct (extract inp) as [x|] eqn:Ex; [|discriminate].
  intros H. apply samples_loop_lookup in H as [L _].
  rewrite L, length_replicate.
  apply extract_inv in Ex as (?&?&?&?&?&?&?&?&?&?&->). reflexivity.
Qed.

(** The averaging loop divides every entry. *)
Lemma div_loop numSamples preds :
  for_range (div_body numSamples) 0 (length preds) preds
  = Some (map (fun p => ddiv p (of_mwSize numSamples)) preds).
Proof.
  erewrite for_range_ext by (intros; apply div_body_slot).
  rewrite (for_range_slot_map (fun _ p => ddiv p (of_mwSize numSamples))).
  f_equal. apply (imap_const (fun p => ddiv p (of_mwSize numSamples))).
Qed.

(** The loop adding the global offset alone adds it to every entry. *)
Lemma chi_loop chi preds :
  for_range (fun e preds => add_at e chi preds) 0 (length preds) preds
  = Some (map (fun p => dadd p chi) preds).
Proof.
  rewrite (for_range_slot_map (fun _ p => dadd p chi)).
  f_equal. apply (imap_const (fun p => dadd p chi)).
Qed.

Lemma map_replicate {T U : Type} (f : T -> U) n x :
  map f (replicate n x) = replicate n (f x).
Proof. induction n; cbn; congruence. Qed.

(** The whole call, on one slot. *)
Lemma mexFunction_lookup inp out :
  mexFunction inp = Some out ->
  exists x, extract inp = Some x /\
    forall j, out !! j = output_slot x (prhs2 inp) (dyad_of x j) j.
Proof.
  unfold mexFunction. destruct (accumulate inp) as [sum|] eqn:Hacc;
    [|discriminate].
  pose proof (accumulate_length _ _ Hacc) as Hlen.
  unfold accumulate in Hacc.
  destruct (extract inp) as [x|] eqn:Ex; [|discriminate].
  apply samples_loop_lookup in Hacc as [_ K].
  assert (Hn : x_numExamples x = mxGetM (prhs0 inp)).
  { apply extract_inv in Ex as (?&?&?&?&?&?&?&?&?&?&->). reflexivity. }
  intros H. exists x. split; [reflexivity|]. intros j.
  unfold output_slot. rewrite <- K, Hn.
  destruct (1 <? numSamples_of (prhs2 inp)).
  - rewrite <- Hlen, div_loop in H. injection H as <-.
    change (map ?f sum) with (f <$> sum). rewrite list_lookup_fmap.
    unfold stage. destruct (decide _) as [Hj|Hj].
    + destruct (sum !! j); reflexivity.
    + rewrite (lookup_ge_None_2 sum j) by lia. reflexivity.
  - injection H as <-. reflexivity.
Qed.

End Mex.

(** * Properties of [mexFunction] *)

Section MexClaims.
Context {A : Arith}.
Implicit Types (preds : list double) (p : double) (e j : nat)
  (inp : MexInput).

(** ** A single topic: given topics against integration *)

Lemma wrap32_idem z : wrap32 (wrap32 z) = wrap32 z.
Proof. unfold wrap32. apply Z.mod_mod. lia. Qed.

Lemma known_term_topic_one oit KU d :
  known_term oit (Some 1) KU d = single_term oit KU d.
Proof.
  unfold known_term, single_term. destruct oit as [it|]; [|reflexivity].
  change (wrap32 (1 - 1)) with 0. rewrite Z.add_0_r, wrap32_idem. reflexivity.
Qed.

Lemma addOffsets_single_topic users items numExamples lt d preds :
  addOffsets users items 1 numExamples lt d None preds
  = addOffsets users items 1 numExamples lt d
      (Some (replicate (length preds) 1)) preds.
Proof.
  rewrite !addOffsets_slots.
  apply (for_range_ext_inv (fun st => length st = length preds));
    [| |reflexivity].
  - intros e st _ Hst. cbn [option_map].
    destruct (decide (e < length preds)%nat) as [He|He].
    + rewrite lookup_replicate_2 by exact He. unfold offset_slot.
      change (1 <? 1) with false. cbn iota.
      rewrite known_term_topic_one. reflexivity.
    + unfold slot_update. rewrite (lookup_ge_None_2 st e) by lia. reflexivity.
  - intros e st st' _ Hst Hs. rewrite <- Hst. eapply slot_update_length; eauto.
Qed.

Lemma sample_body_single_topic (x : Extracted) samples t preds :
  x_zU x = None -> x_KU x = 1 ->
  length preds = Z.to_nat (x_numExamples x) ->
  sample_body x samples t preds
  = sample_body
      (MkExtracted (x_users x) (x_items x)
                   (Some (replicate (Z.to_nat (x_numExamples x)) 1))
                   (x_zM x) x)
      samples t preds.
Proof.
  intros Hz HK Hlen. unfold sample_body.
  cbn [x_users x_items x_zU x_zM x_scalars].
  destruct (mxData samples !! t) as [s|]; [|reflexivity].
  rewrite Hz, HK, <- Hlen, <- addOffsets_single_topic. reflexivity.
Qed.

Lemma sample_body_length (x : Extracted) samples t preds preds' :
  sample_body x samples t preds = Some preds' -> length preds' = length preds.
Proof. intros H. apply sample_body_lookup in H as (s & _ & L & _). exact L. Qed.

(** C5: when the first sample declares a single row topic ([KU = 1]), a
    call with the topic array [zU] absent and the call with [zU] filled
    with ones return the same thing: both fail, or both return the same
    vector, entry for entry. *)
Theorem C5_single_topic_paths_agree inp (zabsent zones : mxArray Z) :
  mxData zabsent = [] ->
  mxData zones = replicate (Z.to_nat (mxGetM (prhs0 inp))) 1 ->
  (forall s0, mxData (prhs2 inp) !! 0%nat = Some s0 ->
              mxGetM (fld_logthetaU s0) = 1) ->
  mexFunction (with_zU inp zabsent) = mexFunction (with_zU inp zones).
Proof.
  intros Habs Hones HK.
  assert (Ez : mxGetData zabsent = None)
    by (unfold mxGetData; rewrite Habs; reflexivity).
  unfold mexFunction, accumulate.
  cbn [with_zU prhs0 prhs1 prhs2 prhs3 prhs4 prhs5].
  destruct (extract (with_zU inp zabsent)) as [x|] eqn:Ex.
  - apply extract_inv in Ex
      as (s0 & chi & ab & ac & ad & H0 & Hc & Hb0 & Hb1 & Hb2 & Hx).
    cbn [with_zU prhs0 prhs1 prhs2 prhs3 prhs4 prhs5] in *.
    rewrite (extract_Some (with_zU inp zones) s0 chi ab ac ad) by assumption.
    cbn [with_zU prhs0 prhs1 prhs2 prhs3 prhs4 prhs5].
    rewrite Ez in Hx. rewrite (HK s0 H0) in *. change (to_int 1) with 1 in *.
    destruct (Z.to_nat (mxGetM (prhs0 inp))) as [|n] eqn:En.
    + (* an empty batch: the array of ones is empty and reads as absent *)
      unfold mxGetData. rewrite Hones. subst x. reflexivity.
    + assert (Hget : mxGetData zones
                     = Some (replicate (Z.to_nat (mxGetM (prhs0 inp))) 1)).
      { unfold mxGetData. rewrite Hones, En. reflexivity. }
      rewrite Hget. subst x. cbn [x_numExamples x_scalars].
      match goal with
      | |- match ?a with _ => _ end = match ?b with _ => _ end =>
          assert (a = b) as ->; [|reflexivity]
      end.
      apply (for_range_ext_inv
               (fun st => length st = Z.to_nat (mxGetM (prhs0 inp)))).
      * intros t st _ Hst.
        rewrite sample_body_single_topic; [reflexivity..|exact Hst].
      * intros t st st' _ Hst Hs. rewrite <- Hst.
        eapply sample_body_length; eauto.
      * rewrite En. apply length_replicate.
  - (* the reads before the loop fail in both calls *)
    unfold extract in *.
    cbn [with_zU prhs0 prhs1 prhs2 prhs3 prhs4 prhs5] in *.
    destruct (mxData (prhs2 inp) !! 0%nat) as [s0|]; [|reflexivity].
    destruct (mxGetPr (fld_chi s0) !! 0%nat); [|reflexivity].
    destruct (mxData (prhs5 inp) !! 0%nat); [|reflexivity].
    destruct (mxData (prhs5 inp) !! 1%nat); [|reflexivity].
    destruct (mxData (prhs5 inp) !! 2%nat); [|reflexivity].
    discriminate.
Qed.

(** ** The flags *)

Lemma extract_numExamples inp (x : Extracted) :
  extract inp = Some x -> x_numExamples x = mxGetM (prhs0 inp).
Proof.
  intros Ex. apply extract_inv in Ex as (?&?&?&?&?&?&?&?&?&?&->). reflexivity.
Qed.

(** With the three flags off, a sample leaves [preds] as it is. *)
Lemma sample_body_no_flags (x : Extracted) samples t s preds :
  x_addBase x = false -> x_addC x = false -> x_addD x = false ->
  mxData samples !! t = Some s ->
  sample_body x samples t preds = Some preds.
Proof.
  intros Hb Hc Hd Hs. unfold sample_body.
  rewrite Hs, Hb, Hc, Hd, !andb_false_r. reflexivity.
Qed.

(** With the three flags off the output is the zero vector, in any
    arithmetic where zero divided by the number of samples is zero. *)
Lemma all_flags_false_zero inp s0 chi :
  1 <= numSamples_of (prhs2 inp) ->
  (Z.to_nat (numSamples_of (prhs2 inp)) <= length (mxData (prhs2 inp)))%nat ->
  mxData (prhs2 inp) !! 0%nat = Some s0 ->
  mxGetPr (fld_chi s0) !! 0%nat = Some chi ->
  mxData (prhs5 inp) !! 0%nat = Some false ->
  mxData (prhs5 inp) !! 1%nat = Some false ->
  mxData (prhs5 inp) !! 2%nat = Some false ->
  (1 < numSamples_of (prhs2 inp) ->
   ddiv dzero (of_mwSize (numSamples_of (prhs2 inp))) = dzero) ->
  mexFunction inp = Some (replicate (Z.to_nat (mxGetM (prhs0 inp))) dzero).
Proof.
  intros HT Hlen H0 Hchi Hb Hc Hd Hdiv.
  unfold mexFunction, accumulate.
  rewrite (extract_Some inp s0 chi false false false) by assumption.
  cbn [x_numExamples x_scalars].
  rewrite for_range_id.
  2:{ intros t Ht.
      destruct (lookup_lt_is_Some_2 (mxData (prhs2 inp)) t) as [s Hs]; [lia|].
      eapply sample_body_no_flags; eauto. }
  destruct (Z.ltb_spec 1 (numSamples_of (prhs2 inp))) as [Hlt|Hle];
    [|reflexivity].
  rewrite <- (length_replicate (Z.to_nat (mxGetM (prhs0 inp))) dzero) at 1.
  rewrite div_loop, map_replicate, Hdiv by exact Hlt. reflexivity.
Qed.

(** ** The averaging step *)

(** C7: the output is obtained from the sum accumulated over all the
    samples by one pass: every entry divided by [T] when [T > 1], the sum
    itself when [T = 1]; where dividing by one changes nothing, that is the
    sum divided by [T] in both cases. *)
Theorem C7_average_after_accumulation inp sum :
  accumulate inp = Some sum ->
  (1 < numSamples_of (prhs2 inp) ->
   mexFunction inp
   = Some (map (fun p => ddiv p (of_mwSize (numSamples_of (prhs2 inp)))) sum))
  /\ (numSamples_of (prhs2 inp) = 1 -> mexFunction inp = Some sum)
  /\ (1 <= numSamples_of (prhs2 inp) ->
      (forall p, In p sum -> ddiv p (of_mwSize 1) = p) ->
      mexFunction inp
      = Some (map (fun p => ddiv p (of_mwSize (numSamples_of (prhs2 inp)))) sum)).
Proof.
  intros Hacc. pose proof (accumulate_length _ _ Hacc) as Hlen.
  unfold mexFunction. rewrite Hacc, <- Hlen, div_loop.
  split; [|split].
  - intros HT.
    destruct (Z.ltb_spec 1 (numSamples_of (prhs2 inp))); [reflexivity|lia].
  - intros ->. reflexivity.
  - intros HT Hone.
    destruct (Z.ltb_spec 1 (numSamples_of (prhs2 inp))); [reflexivity|].
    assert (numSamples_of (prhs2 inp) = 1) as -> by lia.
    f_equal. rewrite <- (map_id sum) at 1.
    apply map_ext_in. intros p Hp. symmetry. apply Hone. exact Hp.
Qed.

(** ** The global offset alone *)

(** A bias-only call on one sample, whatever the index arrays hold. *)
Lemma bias_only_call inp s chi (users items : mxArray Z) :
  numSamples_of (prhs2 inp) = 1 ->
  mxData (prhs2 inp) !! 0%nat = Some s ->
  mxGetPr (fld_chi s) !! 0%nat = Some chi ->
  mxGetM (fld_a s) = 0 ->
  mxData (prhs5 inp) !! 0%nat = Some true ->
  mxData (prhs5 inp) !! 1%nat = Some false ->
  mxData (prhs5 inp) !! 2%nat = Some false ->
  mexFunction (with_dyads inp users items)
  = Some (replicate (Z.to_nat (mxGetM users)) (dadd dzero chi)).
Proof.
  intros HT H0 Hchi HF Hb Hc Hd. unfold mexFunction, accumulate.
  rewrite (extract_Some (with_dyads inp users items) s chi true false false)
    by assumption.
  cbn [with_dyads prhs0 prhs1 prhs2 prhs3 prhs4 prhs5
       x_numExamples x_scalars].
  rewrite HT. change (Z.to_nat 1) with 1%nat. cbn [for_range].
  unfold sample_body.
  cbn [x_users x_items x_zU x_zM x_scalars x_numExamples x_chi x_KU x_KM
       x_numFacs x_addBase x_addC x_addD].
  rewrite H0, HF, !andb_false_r. change (0 <? to_ptrdiff 0) with false.
  cbn iota.
  rewrite <- (length_replicate (Z.to_nat (mxGetM users)) dzero) at 1.
  rewrite chi_loop, map_replicate. reflexivity.
Qed.

Lemma with_dyads_same inp : with_dyads inp (prhs0 inp) (prhs1 inp) = inp.
Proof. destruct inp; reflexivity. Qed.

(** C9: with no factors ([F = 0]), [includeFactorization] on, the two
    offset flags off and a single sample, every entry of the output is the
    zero of the fresh output plus the sample's [chi], that is [chi]; the
    index arrays are not read, so any other [users] and [items] for the
    same number of examples give the same output. *)
Theorem C9_bias_only_output_is_chi inp s chi :
  numSamples_of (prhs2 inp) = 1 ->
  mxData (prhs2 inp) !! 0%nat = Some s ->
  mxGetPr (fld_chi s) !! 0%nat = Some chi ->
  mxGetM (fld_a s) = 0 ->
  mxData (prhs5 inp) !! 0%nat = Some true ->
  mxData (prhs5 inp) !! 1%nat = Some false ->
  mxData (prhs5 inp) !! 2%nat = Some false ->
  mexFunction inp
  = Some (replicate (Z.to_nat (mxGetM (prhs0 inp))) (dadd dzero chi))
  /\ (dadd dzero chi = chi ->
      mexFunction inp = Some (replicate (Z.to_nat (mxGetM (prhs0 inp))) chi))
  /\ (forall users items : mxArray Z,
        mxGetM users = mxGetM (prhs0 inp) ->
        mexFunction (with_dyads inp users items) = mexFunction inp).
Proof.
  intros HT H0 Hchi HF Hb Hc Hd.
  pose proof (fun users items =>
                bias_only_call inp s chi users items HT H0 Hchi HF Hb Hc Hd)
    as Hout.
  pose proof (Hout (prhs0 inp) (prhs1 inp)) as Hinp.
  rewrite with_dyads_same in Hinp.
  split; [exact Hinp|]. split.
  - intros <-. exact Hinp.
  - intros users items HN. rewrite Hout, Hinp, HN. reflexivity.
Qed.

(** ** Locality *)

Lemma extract_scalars_eq inp1 inp2 (x1 x2 : Extracted) :
  prhs2 inp1 = prhs2 inp2 ->
  mxData (prhs5 inp1) = mxData (prhs5 inp2) ->
  mxGetM (prhs0 inp1) = mxGetM (prhs0 inp2) ->
  extract inp1 = Some x1 -> extract inp2 = Some x2 ->
  x_scalars x1 = x_scalars x2.
Proof.
  intros Hs Ha Hn E1 E2.
  apply extract_inv in E1
    as (s1 & c1 & b1 & bc1 & bd1 & A0 & A1 & A2 & A3 & A4 & ->).
  apply extract_inv in E2
    as (s2 & c2 & b2 & bc2 & bd2 & B0 & B1 & B2 & B3 & B4 & ->).
  rewrite Hs in A0. rewrite Ha in A2, A3, A4.
  assert (s1 = s2) as -> by congruence.
  cbn [x_scalars]. f_equal; congruence.
Qed.

Lemma extract_dyad inp (x : Extracted) e :
  extract inp = Some x ->
  dyad_of x e
  = {| dy_user := mxData (prhs0 inp) !! e;
       dy_item := mxData (prhs1 inp) !! e;
       dy_zU := topic_at (prhs3 inp) e;
       dy_zM := topic_at (prhs4 inp) e |}.
Proof.
  intros Ex. apply extract_inv in Ex as (?&?&?&?&?&?&?&?&?&?&->). reflexivity.
Qed.

(** C10: two calls on the same samples, flags and number of examples that
    agree at position [e] on [users[e]], [items[e]] and, for each topic
    array, on its presence and its entry [e], return outputs that agree at
    position [e]. *)
Theorem C10_output_entry_depends_on_own_example inp1 inp2 out1 out2 e :
  prhs2 inp1 = prhs2 inp2 ->
  mxData (prhs5 inp1) = mxData (prhs5 inp2) ->
  mxGetM (prhs0 inp1) = mxGetM (prhs0 inp2) ->
  mxData (prhs0 inp1) !! e = mxData (prhs0 inp2) !! e ->
  mxData (prhs1 inp1) !! e = mxData (prhs1 inp2) !! e ->
  topic_at (prhs3 inp1) e = topic_at (prhs3 inp2) e ->
  topic_at (prhs4 inp1) e = topic_at (prhs4 inp2) e ->
  mexFunction inp1 = Some out1 ->
  mexFunction inp2 = Some out2 ->
  out1 !! e = out2 !! e.
Proof.
  intros Hs Ha Hn Hu Hi HzU HzM H1 H2.
  apply mexFunction_lookup in H1 as (x1 & E1 & K1).
  apply mexFunction_lookup in H2 as (x2 & E2 & K2).
  rewrite K1, K2, (extract_dyad _ _ _ E1), (extract_dyad _ _ _ E2).
  rewrite (extract_scalars_eq _ _ _ _ Hs Ha Hn E1 E2), Hs, Hu, Hi, HzU, HzM.
  reflexivity.
Qed.

(** ** The global offset of a call *)

(** X2: with the factorization flag alone and [F > 0], sample [t] adds to
    the slot of example [e] the global offset of the first sample, whatever
    [t] is, plus the inner product of the factors of sample [t]. *)
Theorem factorization_adds_chi_of_first_sample
    inp (x : Extracted) s0 chi0 t s preds preds' e p :
  extract inp = Some x ->
  mxData (prhs2 inp) !! 0%nat = Some s0 ->
  mxGetPr (fld_chi s0) !! 0%nat = Some chi0 ->
  x_addBase x = true -> x_addC x = false -> x_addD x = false ->
  0 < x_numFacs x ->
  mxData (prhs2 inp) !! t = Some s ->
  sample_body x (prhs2 inp) t preds = Some preds' ->
  (e < Z.to_nat (mxGetM (prhs0 inp)))%nat ->
  preds !! e = Some p ->
  exists u it dot,
    mxData (prhs0 inp) !! e = Some u /\
    mxData (prhs1 inp) !! e = Some it /\
    ddot (x_numFacs x) (mxGetPr (fld_a s)) (x_numFacs x * wrap32 (u - 1))
         (mxGetPr (fld_b s)) (x_numFacs x * wrap32 (it - 1)) = Some dot /\
    preds' !! e = Some (dadd p (dadd chi0 dot)).
Proof.
  intros Ex H0 Hchi Hb Hc Hd HF Hs Hrun He Hp.
  apply sample_body_lookup in Hrun as (s' & Hs' & Hlen & K).
  assert (s' = s) as -> by congruence.
  assert (Hsome : is_Some (preds' !! e)).
  { apply lookup_lt_is_Some_2. rewrite Hlen. eapply lookup_lt_Some; eauto. }
  rewrite K in Hsome |- *. rewrite (extract_dyad _ _ _ Ex) in Hsome |- *.
  assert (Hx : x_chi x = chi0 /\ x_numExamples x = mxGetM (prhs0 inp)).
  { apply extract_inv in Ex as (s1 & c1 & ?&?&?& A0 & A1 &?&?&?& ->).
    cbn. split; congruence. }
  destruct Hx as [Hx Hn].
  unfold sample_slot in Hsome |- *.
  cbn [dy_user dy_item dy_zU dy_zM] in Hsome |- *.
  rewrite Hb, Hc, Hd, !andb_false_r, Hp, Hx, Hn in Hsome |- *.
  destruct (Z.ltb_spec 0 (x_numFacs x)); [|lia].
  unfold stage, add_opt, base_term in Hsome |- *.
  destruct (decide _); [|lia].
  destruct (mxData (prhs0 inp) !! e) as [u|]; [|destruct Hsome; discriminate].
  destruct (mxData (prhs1 inp) !! e) as [it|]; [|destruct Hsome; discriminate].
  destruct (ddot _ _ _ _ _) as [dot|] eqn:Hdot;
    [|destruct Hsome; discriminate].
  exists u, it, dot. split; [reflexivity|]. split; [reflexivity|].
  split; [exact Hdot|reflexivity].
Qed.

End MexClaims.

(** * Linearity in the samples, in exact arithmetic *)

Section Linearity.
Context {A : Arith}.
Hypothesis Hassoc : forall x y z, dadd (dadd x y) z = dadd x (dadd y z).
Hypothesis Hzero_r : forall x, dadd x dzero = x.
Hypothesis Hzero_l : forall x, dadd dzero x = x.
Hypothesis Hdiv_one : forall x, ddiv x (of_mwSize 1) = x.
Implicit Types (preds : list double) (p : double) (e j : nat)
  (inp : MexInput).

Lemma additive_id : additive (fun o => o).
Proof. split; [reflexivity|]. intros p. rewrite Hzero_r. reflexivity. Qed.

Lemma additive_compose (F G : option double -> option double) :
  additive F -> additive G -> additive (fun o => G (F o)).
Proof.
  intros [F0 FA] [G0 GA]. split.
  - rewrite F0. exact G0.
  - intros p. rewrite (FA p). destruct (F (Some dzero)) as [c1|].
    + rewrite (GA (dadd p c1)), (GA c1).
      destruct (G (Some dzero)) as [c2|]; [|reflexivity].
      rewrite Hassoc. reflexivity.
    + rewrite G0. reflexivity.
Qed.

Lemma additive_stage n j (g : double -> option double) :
  (forall p, g p = let* c := g dzero in Some (dadd p c)) ->
  additive (stage n j g).
Proof.
  intros Hg. unfold stage. split.
  - destruct (decide _); reflexivity.
  - intros p. destruct (decide _).
    + apply Hg.
    + rewrite Hzero_r. reflexivity.
Qed.

Lemma add_opt_additive ox p :
  add_opt ox p = let* c := add_opt ox dzero in Some (dadd p c).
Proof.
  unfold add_opt. destruct ox as [x|]; [|reflexivity].
  rewrite Hzero_l. reflexivity.
Qed.

Lemma integrate_slot_additive ou oit KU lt d p :
  integrate_slot ou oit KU lt d p
  = let* c := integrate_slot ou oit KU lt d dzero in Some (dadd p c).
Proof.
  unfold integrate_slot. destruct ou as [u|]; [|reflexivity].
  destruct oit as [it|]; [|reflexivity].
  rewrite !acc_terms_collect. destruct (collect _ _ _) as [terms|]; [|reflexivity].
  rewrite !fold_left_dsum, Hzero_l by assumption. reflexivity.
Qed.

Lemma offset_slot_additive ou oit oz KU lt d p :
  offset_slot ou oit oz KU lt d p
  = let* c := offset_slot ou oit oz KU lt d dzero in Some (dadd p c).
Proof.
  unfold offset_slot. destruct oz as [oz|].
  - apply add_opt_additive.
  - destruct (1 <? KU); [apply integrate_slot_additive|apply add_opt_additive].
Qed.

Ltac additive_stages :=
  lazymatch goal with
  | |- additive (fun o => o) => apply additive_id
  | |- additive (fun o => stage ?n ?j ?g (@?F o)) =>
      apply (additive_compose F (stage n j g));
      [ additive_stages
      | apply additive_stage; intros;
        first [apply offset_slot_additive | apply add_opt_additive] ]
  end.

Lemma sample_slot_additive sc s dy j : additive (sample_slot sc s dy j).
Proof.
  unfold sample_slot. cbv zeta.
  destruct ((0 <? x_KU sc) && x_addD sc), ((0 <? x_KM sc) && x_addC sc),
    (x_addBase sc), (0 <? x_numFacs sc); additive_stages.
Qed.

(** The loop over the samples, as a fold over the list of samples. *)
Lemma samples_slot_fold sc (l : list Sample) dy j k : forall t o,
  (t + k <= length l)%nat ->
  samples_slot sc l dy j t k o
  = fold_left (fun o s => sample_slot sc s dy j o) (take k (drop t l)) o.
Proof.
  induction k as [|k IH]; intros t o Hle; cbn [samples_slot].
  - reflexivity.
  - destruct (lookup_lt_is_Some_2 l t) as [s Hs]; [lia|].
    rewrite Hs, (drop_S _ _ _ Hs). cbn [take fold_left].
    apply IH. lia.
Qed.

Lemma samples_fold_None sc dy j (l : list Sample) :
  fold_left (fun o s => sample_slot sc s dy j o) l None = None.
Proof.
  induction l as [|s l IH]; cbn [fold_left]; [reflexivity|].
  destruct (sample_slot_additive sc s dy j) as [-> _]. exact IH.
Qed.

(** A slot of the running sum of output vectors. *)
Lemma fold_zip_lookup_None (outs : list (list double)) j : forall acc,
  acc !! j = None -> fold_left (zip_with dadd) outs acc !! j = None.
Proof.
  induction outs as [|o outs IH]; intros acc Hacc; cbn [fold_left].
  - exact Hacc.
  - apply IH. apply lookup_zip_with_None. left. exact Hacc.
Qed.

Lemma samples_fold_average sc dy j (l : list Sample) :
  forall (outs : list (list double)) acc p,
  Forall2 (fun s o => o !! j = sample_slot sc s dy j (Some dzero) /\
                      is_Some (o !! j)) l outs ->
  acc !! j = Some p ->
  fold_left (fun o s => sample_slot sc s dy j o) l (Some p)
  = fold_left (zip_with dadd) outs acc !! j.
Proof.
  induction l as [|s l IH]; intros outs acc p HF Hacc.
  - apply Forall2_nil_inv_l in HF as ->. cbn. symmetry. exact Hacc.
  - apply Forall2_cons_inv_l in HF as (o & outs' & [Ho [c Hc]] & HF & ->).
    cbn [fold_left].
    destruct (sample_slot_additive sc s dy j) as [_ Hadd].
    rewrite (Hadd p), <- Ho, Hc.
    apply IH; [exact HF|].
    rewrite lookup_zip_with, Hacc, Hc. reflexivity.
Qed.

Lemma mexFunction_length inp out :
  mexFunction inp = Some out -> length out = Z.to_nat (mxGetM (prhs0 inp)).
Proof.
  unfold mexFunction. destruct (accumulate inp) as [sum|] eqn:Hacc;
    [|discriminate].
  pose proof (accumulate_length _ _ Hacc) as Hlen.
  destruct (1 <? numSamples_of (prhs2 inp)).
  - rewrite <- Hlen at 1. rewrite div_loop. intros [= <-].
    rewrite length_map. exact Hlen.
  - intros [= <-]. exact Hlen.
Qed.

(** A call on the single sample [s], on one slot. *)
Lemma single_call_lookup inp (x : Extracted) s0 s o j :
  extract inp = Some x ->
  mxData (prhs2 inp) !! 0%nat = Some s0 ->
  same_shape s0 s ->
  mexFunction (with_samples inp (MxArray 1 1 [s])) = Some o ->
  (j < Z.to_nat (mxGetM (prhs0 inp)))%nat ->
  o !! j = sample_slot x s (dyad_of x j) j (Some dzero) /\ is_Some (o !! j).
Proof.
  intros Ex H0 (Hchi & HU & HM & HF) Hcall Hj.
  pose proof (mexFunction_length _ _ Hcall) as Hlen.
  cbn [with_samples prhs0] in Hlen.
  split; [|apply lookup_lt_is_Some_2; lia].
  apply mexFunction_lookup in Hcall as (x' & Ex' & K). rewrite K.
  apply extract_inv in Ex
    as (s0' & chi & ab & ac & ad & A0 & A1 & A2 & A3 & A4 & ->).
  apply extract_inv in Ex'
    as (s' & chi' & ab' & ac' & ad' & B0 & B1 & B2 & B3 & B4 & ->).
  cbn [with_samples prhs0 prhs1 prhs2 prhs3 prhs4 prhs5 mxData] in *.
  assert (s0' = s0) as -> by congruence.
  assert (s' = s) as -> by (cbn in B0; congruence).
  assert (chi' = chi) as -> by congruence.
  assert (ab' = ab) as -> by congruence.
  assert (ac' = ac) as -> by congruence.
  assert (ad' = ad) as -> by congruence.
  rewrite HU, HM, HF.
  unfold output_slot, numSamples_of, dyad_of.
  cbn [mxGetM mxGetN mxData x_numExamples x_scalars x_users x_items x_zU x_zM].
  change (1 <? 1) with false. cbn iota. change (Z.to_nat 1) with 1%nat.
  cbn [samples_slot lookup list_lookup].
  rewrite lookup_replicate_2 by exact Hj. reflexivity.
Qed.

(** X1: in exact arithmetic, on samples that share the dimensions and the
    global offset of the first one, a call on [T] samples returns the
    elementwise average of the outputs of the [T] calls on one sample
    each. *)
Theorem linearity_in_samples_of_one_shape inp s0 out
    (outs : list (list double)) :
  mxData (prhs2 inp) !! 0%nat = Some s0 ->
  length (mxData (prhs2 inp)) = Z.to_nat (numSamples_of (prhs2 inp)) ->
  Forall (same_shape s0) (mxData (prhs2 inp)) ->
  mexFunction inp = Some out ->
  single_sample_calls inp = map Some outs ->
  out = elementwise_average (Z.to_nat (mxGetM (prhs0 inp))) outs.
Proof.
  intros H0 HT Hshape Hcall Hsingles.
  pose proof (mexFunction_length _ _ Hcall) as Hlen.
  destruct (mexFunction_lookup _ _ Hcall) as (x & Ex & K).
  pose proof (extract_numExamples _ _ Ex) as Hn.
  assert (Hcount : length outs = length (mxData (prhs2 inp))).
  { apply (f_equal length) in Hsingles. unfold single_sample_calls in Hsingles.
    rewrite !length_map in Hsingles. congruence. }
  pose proof (lookup_lt_Some _ _ _ H0) as Hpos.
  assert (HTpos : Z.of_nat (length outs) = numSamples_of (prhs2 inp)) by lia.
  assert (Hpairs : forall j, (j < Z.to_nat (mxGetM (prhs0 inp)))%nat ->
             Forall2 (fun s o =>
                        o !! j = sample_slot x s (dyad_of x j) j (Some dzero) /\
                        is_Some (o !! j))
                     (mxData (prhs2 inp)) outs).
  { intros j Hj. apply Forall2_same_length_lookup. split; [congruence|].
    intros i s o Hs Ho.
    apply (f_equal (fun l => l !! i)) in Hsingles.
    unfold single_sample_calls in Hsingles.
    change (map ?f ?l) with (f <$> l) in Hsingles.
    rewrite !list_lookup_fmap, Hs, Ho in Hsingles. cbn in Hsingles.
    injection Hsingles as Hsingle.
    eapply single_call_lookup; eauto.
    eapply Forall_lookup_1; eauto. }
  apply list_eq. intros j. rewrite K. unfold elementwise_average.
  change (map ?f ?l) with (f <$> l). rewrite list_lookup_fmap.
  unfold output_slot. rewrite Hn, HTpos.
  rewrite samples_slot_fold by lia.
  rewrite drop_0, take_ge by lia.
  destruct (decide (j < Z.to_nat (mxGetM (prhs0 inp)))%nat) as [Hj|Hj].
  - rewrite lookup_replicate_2 by exact Hj.
    rewrite (samples_fold_average x (dyad_of x j) j _ outs
               (replicate (Z.to_nat (mxGetM (prhs0 inp))) dzero) dzero
               (Hpairs j Hj) (lookup_replicate_2 _ _ _ Hj)).
    destruct (Z.ltb_spec 1 (numSamples_of (prhs2 inp))) as [Hlt|Hle].
    + unfold stage. destruct (decide _); [|lia].
      destruct (_ !! j); reflexivity.
    + assert (numSamples_of (prhs2 inp) = 1) as -> by lia.
      destruct (_ !! j) as [p|]; [|reflexivity].
      cbn. rewrite Hdiv_one. reflexivity.
  - assert (Hout : replicate (Z.to_nat (mxGetM (prhs0 inp))) dzero !! j
                   = (None : option double))
      by (apply lookup_replicate_None; lia).
    rewrite Hout, (fold_zip_lookup_None _ _ _ Hout).
    rewrite samples_fold_None.
    destruct (1 <? numSamples_of (prhs2 inp)); [|reflexivity].
    unfold stage. destruct (decide _); reflexivity.
Qed.

End Linearity.

(** * IEEE binary64 *)

Section Binary64.

Lemma iter_pos_nat {T : Type} (f : T -> T) (n : positive) : forall x,
  SpecFloat.iter_pos f n x = Nat.iter (Pos.to_nat n) f x.
Proof.
  induction n as [n IH|n IH|]; intros x; cbn [SpecFloat.iter_pos].
  - rewrite !IH, Pos2Nat.inj_xI.
    replace (Datatypes.S (2 * Pos.to_nat n))
      with (Pos.to_nat n + Datatypes.S (Pos.to_nat n))%nat by lia.
    rewrite Nat.iter_add, Nat.iter_succ_r. reflexivity.
  - rewrite !IH, Pos2Nat.inj_xO.
    replace (2 * Pos.to_nat n)%nat
      with (Pos.to_nat n + Pos.to_nat n)%nat by lia.
    rewrite Nat.iter_add. reflexivity.
  - reflexivity.
Qed.

Lemma shr_1_positive mrs q :
  shr_m mrs = Zpos q -> 1 < Zpos (digits2_pos q) ->
  exists q', shr_m (shr_1 mrs) = Zpos q' /\
             Zpos (digits2_pos q') = Zpos (digits2_pos q) - 1.
Proof.
  destruct mrs as [m r s]. cbn [shr_m]. intros -> Hd.
  destruct q as [q|q|]; cbn [shr_1 shr_m digits2_pos] in *.
  - exists q. split; [reflexivity|]. lia.
  - exists q. split; [reflexivity|]. lia.
  - lia.
Qed.

Lemma shr_iter_positive n : forall mrs q,
  shr_m mrs = Zpos q -> Z.of_nat n < Zpos (digits2_pos q) ->
  exists q', shr_m (Nat.iter n shr_1 mrs) = Zpos q'.
Proof.
  assert (H : forall mrs q,
             shr_m mrs = Zpos q -> Z.of_nat n < Zpos (digits2_pos q) ->
             exists q', shr_m (Nat.iter n shr_1 mrs) = Zpos q' /\
                        Zpos (digits2_pos q')
                        = Zpos (digits2_pos q) - Z.of_nat n).
  { induction n as [|n IH]; intros mrs q Hm Hn.
    - exists q. split; [exact Hm|]. cbn. lia.
    - destruct (IH mrs q Hm) as (q1 & H1 & D1); [lia|].
      cbn [Nat.iter nat_rect].
      destruct (shr_1_positive _ _ H1) as (q2 & H2 & D2); [lia|].
      exists q2. split; [exact H2|]. lia. }
  intros mrs q Hm Hn. destruct (H mrs q Hm Hn) as (q' & Hq & _). eauto.
Qed.

Lemma shr_fexp_positive (q : positive) e l :
  - 1074 <= e ->
  exists q', shr_m (fst (shr_fexp prec emax (Zpos q) e l)) = Zpos q' /\
             - 1074 <= snd (shr_fexp prec emax (Zpos q) e l).
Proof.
  intros He. unfold shr_fexp, shr, fexp, emin, prec, emax. cbn [Zdigits2].
  assert (Hrec : shr_m (shr_record_of_loc (Zpos q) l) = Zpos q)
    by (destruct l as [|[]]; reflexivity).
  destruct (Z.max (Zpos (digits2_pos q) + e - 53) (3 - 1024 - 53) - e)
    as [|k|k] eqn:Ek; cbn [fst snd].
  - eauto.
  - rewrite iter_pos_nat.
    destruct (shr_iter_positive (Pos.to_nat k) _ q Hrec) as [q' Hq']; [lia|].
    exists q'. split; [exact Hq'|]. lia.
  - eauto.
Qed.

Lemma round_nearest_even_positive (q : positive) l :
  exists q', round_nearest_even (Zpos q) l = Zpos q'.
Proof.
  unfold round_nearest_even.
  destruct l as [|[]]; try (eexists; reflexivity).
  destruct (Z.even (Zpos q)); eexists; reflexivity.
Qed.

Lemma binary_round_aux_nonzero sx (q : positive) e l :
  - 1074 <= e -> sf_nonzero sx (binary_round_aux prec emax sx (Zpos q) e l).
Proof.
  intros He. unfold binary_round_aux.
  destruct (shr_fexp_positive q e l He) as (q1 & H1 & E1).
  destruct (shr_fexp prec emax (Zpos q) e l) as [mrs1 e1]. cbn [fst snd] in *.
  rewrite H1.
  destruct (round_nearest_even_positive q1 (loc_of_shr_record mrs1)) as [q2 ->].
  destruct (shr_fexp_positive q2 e1 loc_Exact E1) as (q3 & H3 & _).
  destruct (shr_fexp prec emax (Zpos q2) e1 loc_Exact) as [mrs3 e3].
  cbn [fst] in H3. rewrite H3.
  destruct (e3 <=? emax - prec); reflexivity.
Qed.

Lemma binary_round_nonzero sx (q : positive) :
  sf_nonzero sx (binary_round prec emax sx q 0).
Proof.
  unfold binary_round, shl_align.
  destruct (fexp prec emax (Zpos (digits2_pos q) + 0) - 0) as [|k|k] eqn:Ek.
  - apply binary_round_aux_nonzero. lia.
  - apply binary_round_aux_nonzero. lia.
  - apply binary_round_aux_nonzero.
    unfold fexp, emin, prec, emax in *. lia.
Qed.

(** In binary64, zero divided by a count is zero. *)
Lemma binary64_zero_div_count (n : Z) :
  1 <= n < 2 ^ 63 ->
  (0 / of_uint63 (Uint63.of_Z n))%float = 0%float.
Proof.
  intros Hn. apply Prim2SF_inj. rewrite div_spec, of_uint63_spec.
  rewrite Uint63.of_Z_spec.
  rewrite Z.mod_small by (change Uint63Axioms.wB with (2 ^ 63); lia).
  destruct n as [|q|q]; [lia| |lia]. cbn [binary_normalize].
  pose proof (binary_round_nonzero false q) as H.
  change (Prim2SF 0) with (S754_zero false).
  destruct (binary_round prec emax false q 0) as [s|s| |s m e];
    cbn in H; try contradiction; subst s; reflexivity.
Qed.

(** In binary64, adding to zero changes no number but -0.0 (which it turns
    into 0.0). *)
Lemma binary64_zero_add (x : float) :
  Prim2SF x <> S754_zero true -> (0 + x)%float = x.
Proof.
  intros Hx. apply Prim2SF_inj. rewrite add_spec.
  change (Prim2SF 0) with (S754_zero false).
  destruct (Prim2SF x) as [[]|[]| |s m e]; try reflexivity. contradiction.
Qed.

(** C6: when [includeFactorization], [includeRowOffset] and
    [includeColOffset] are all false, a call on [T >= 1] samples returns
    the zero vector in binary64: every entry is the zero the output was
    created with, divided by [T] when [T > 1], which is zero again. *)
Theorem C6_all_flags_false_output_zero
    (e : float -> float) (inp : @MexInput (binary64 e)) s0 chi :
  1 <= numSamples_of (prhs2 inp) < 2 ^ 63 ->
  (Z.to_nat (numSamples_of (prhs2 inp)) <= length (mxData (prhs2 inp)))%nat ->
  mxData (prhs2 inp) !! 0%nat = Some s0 ->
  mxGetPr (fld_chi s0) !! 0%nat = Some chi ->
  mxData (prhs5 inp) !! 0%nat = Some false ->
  mxData (prhs5 inp) !! 1%nat = Some false ->
  mxData (prhs5 inp) !! 2%nat = Some false ->
  @mexFunction (binary64 e) inp
  = Some (replicate (Z.to_nat (mxGetM (prhs0 inp))) 0%float).
Proof.
  intros HT Hlen H0 Hchi Hb Hc Hd.
  apply (@all_flags_false_zero (binary64 e) inp s0 chi);
    try assumption; [lia|].
  intros _. apply binary64_zero_div_count. lia.
Qed.

(** X3: in binary64 the bias-only output is [chi] itself, unless [chi] is
    -0.0 (the output is then 0.0, which compares equal to it). *)
Lemma bias_only_output_binary64
    (e : float -> float) (inp : @MexInput (binary64 e)) s (chi : float) :
  numSamples_of (prhs2 inp) = 1 ->
  mxData (prhs2 inp) !! 0%nat = Some s ->
  mxGetPr (fld_chi s) !! 0%nat = Some chi ->
  mxGetM (fld_a s) = 0 ->
  mxData (prhs5 inp) !! 0%nat = Some true ->
  mxData (prhs5 inp) !! 1%nat = Some false ->
  mxData (prhs5 inp) !! 2%nat = Some false ->
  Prim2SF chi <> S754_zero true ->
  @mexFunction (binary64 e) inp
  = Some (replicate (Z.to_nat (mxGetM (prhs0 inp))) chi).
Proof.
  intros HT H0 Hchi HF Hb Hc Hd Hz.
  pose proof (@bias_only_call (binary64 e) inp s chi (prhs0 inp) (prhs1 inp)
                HT H0 Hchi HF Hb Hc Hd) as H.
  rewrite with_dyads_same in H. rewrite H. do 2 f_equal.
  apply binary64_zero_add. exact Hz.
Qed.

End Binary64.

(** * Calls that return, calls that fail *)

Section Safety.
Context {A : Arith}.
Implicit Types (preds : list double) (p : double) (e j : nat)
  (inp : MexInput).

(** A loop whose body cannot fail on the states of an invariant. *)
Lemma for_range_total_inv {S : Type} (P : S -> Prop)
    (f : nat -> S -> option S) n : forall e0 st,
  (forall e st, (e0 <= e < e0 + n)%nat -> P st ->
     exists st', f e st = Some st' /\ P st') ->
  P st -> exists st', for_range f e0 n st = Some st' /\ P st'.
Proof.
  induction n as [|n IH]; intros e0 st Hf HP; cbn [for_range]; [eauto|].
  destruct (Hf e0 st) as (st1 & -> & HP1); [lia|exact HP|].
  apply IH; [|exact HP1]. intros e st2 He. apply Hf. lia.
Qed.

(** A loop with an iteration that fails on every state fails. *)
Lemma for_range_fail {S : Type} (f : nat -> S -> option S) n e :
  forall e0 st,
  (e0 <= e < e0 + n)%nat -> (forall st, f e st = None) ->
  for_range f e0 n st = None.
Proof.
  induction n as [|n IH]; intros e0 st He Hf; [lia|]. cbn [for_range].
  destruct (decide (e = e0)) as [->|Hne]; [rewrite Hf; reflexivity|].
  destruct (f e0 st); [|reflexivity]. apply IH; [lia|exact Hf].
Qed.


(** ** Reads inside the tables succeed *)

Lemma single_term_entry it KU d :
  0 < KU < 2 ^ 31 -> in_table d KU it ->
  exists x, entry d KU it 1 = Some x /\ single_term (Some it) KU d = Some x.
Proof.
  intros HK (Hc & Hb & Hbound).
  destruct (column_offset KU it _ HK Hc Hb Hbound) as (E & H0 & H1).
  unfold single_term, entry. rewrite E.
  replace ((it - 1) * KU + (1 - 1)) with ((it - 1) * KU) by lia.
  destruct (rd_in_range d ((it - 1) * KU)) as [x Hx]; [lia|].
  exists x. split; exact Hx.
Qed.

Lemma offset_slot_in_range u it oz KU lt d p :
  0 < KU < 2 ^ 31 -> offset_in_range u it oz KU lt d ->
  exists y, offset_slot (Some u) (Some it) oz KU lt d p = Some y.
Proof.
  intros HK Hin. unfold offset_slot, offset_in_range in *.
  destruct oz as [[z|]|].
  - destruct Hin as [Hz Ht].
    destruct (known_term_entry it z KU d HK Ht Hz) as (x & _ & Hx).
    unfold add_opt. rewrite Hx. eauto.
  - contradiction.
  - destruct (Z.ltb_spec 1 KU).
    + destruct Hin as [Hu Ht].
      destruct (integrate_slot_terms u it KU lt d p ltac:(lia) Hu Ht)
        as (terms & _ & Hx).
      eauto.
    + destruct (single_term_entry it KU d HK Hin) as (x & _ & Hx).
      unfold add_opt. rewrite Hx. eauto.
Qed.

Lemma ddot_loop_in_range n (x y : list double) : forall ix iy dtemp,
  0 <= ix -> ix + Z.of_nat n <= Z.of_nat (length x) ->
  0 <= iy -> iy + Z.of_nat n <= Z.of_nat (length y) ->
  exists dot, ddot_loop n x ix y iy dtemp = Some dot.
Proof.
  induction n as [|n IH]; intros ix iy dtemp Hx0 Hx Hy0 Hy; cbn [ddot_loop].
  - eauto.
  - destruct (rd_in_range x ix) as [xv ->]; [lia|].
    destruct (rd_in_range y iy) as [yv ->]; [lia|].
    apply IH; lia.
Qed.

Lemma base_term_in_range u it numFacs chi a b :
  0 < numFacs -> base_in_range u it numFacs a b ->
  exists y, base_term (Some u) (Some it) numFacs chi a b = Some y.
Proof.
  intros HF (Hu & Hua & Hi & Hib). unfold base_term, ddot.
  rewrite (wrap32_small (u - 1)), (wrap32_small (it - 1)) by lia.
  destruct (ddot_loop_in_range (Z.to_nat numFacs) a b
              (numFacs * (u - 1)) (numFacs * (it - 1)) dzero)
    as [dot ->]; [nia..|].
  eauto.
Qed.

Lemma to_int_small n : 0 <= n < 2 ^ 31 -> to_int n = n.
Proof. intros H. unfold to_int. rewrite Z.mod_small; lia. Qed.

Lemma to_int_range n : - 2 ^ 31 <= to_int n < 2 ^ 31.
Proof.
  unfold to_int. pose proof (Z.mod_pos_bound (n + 2 ^ 31) (2 ^ 32)). lia.
Qed.

(** One loop of slot updates over a batch whose slots all exist. *)
Lemma slots_total (g : nat -> double -> option double) preds :
  (forall j p, preds !! j = Some p -> exists y, g j p = Some y) ->
  exists preds',
    for_range (fun e => slot_update (g e) e) 0 (length preds) preds
    = Some preds' /\ length preds' = length preds.
Proof.
  intros Hg.
  destruct (for_range_slot_total g (length preds) 0 preds) as [preds' H].
  - intros j Hj. destruct (lookup_lt_is_Some_2 preds j) as [p Hp]; [lia|].
    destruct (Hg j p Hp) as [y Hy]. eauto.
  - exists preds'. split; [exact H|]. eapply for_range_slot_length; eauto.
Qed.

(** A call of [addOffsets] made under a condition, inside the tables. *)
Lemma cond_addOffsets_in_range (c : bool) users items KU numExamples lt d zU
    preds :
  0 <= numExamples < 2 ^ 31 ->
  length preds = Z.to_nat numExamples ->
  (c = true ->
   0 < KU < 2 ^ 31 /\
   forall e, (e < Z.to_nat numExamples)%nat ->
     exists u it, users !! e = Some u /\ items !! e = Some it /\
       offset_in_range u it (option_map (fun z : list Z => z !! e) zU)
                       KU lt d) ->
  exists preds',
    (if c then addOffsets users items KU numExamples lt d zU preds
     else Some preds) = Some preds' /\
    length preds' = Z.to_nat numExamples.
Proof.
  intros HN Hlen Hin. destruct c; [|eauto].
  destruct (Hin eq_refl) as [HK He].
  rewrite addOffsets_slots, to_mwSize_int, <- Hlen by exact HN.
  destruct (slots_total (fun e => offset_slot (users !! e) (items !! e)
              (option_map (fun z : list Z => z !! e) zU) KU lt d) preds)
    as (p1 & H1 & L1).
  - intros j p Hp. apply lookup_lt_Some in Hp.
    destruct (He j) as (u & it & -> & -> & Hd); [lia|].
    apply offset_slot_in_range; assumption.
  - exists p1. split; [exact H1|exact L1].
Qed.

(** One sample on a batch inside its tables. *)
Lemma sample_body_in_range (x : Extracted) samples t s preds :
  0 <= x_numExamples x < 2 ^ 31 ->
  x_KU x < 2 ^ 31 -> x_KM x < 2 ^ 31 ->
  length preds = Z.to_nat (x_numExamples x) ->
  mxData samples !! t = Some s ->
  (forall e, (e < Z.to_nat (x_numExamples x))%nat ->
     exists u it, x_users x !! e = Some u /\ x_items x !! e = Some it /\
       sample_in_range x s u it (dy_zU (dyad_of x e)) (dy_zM (dyad_of x e))) ->
  exists preds', sample_body x samples t preds = Some preds' /\
                 length preds' = Z.to_nat (x_numExamples x).
Proof.
  intros HN HKU HKM Hlen Hs Hin. unfold sample_body. rewrite Hs.
  rewrite to_int_small by exact HN.
  destruct (cond_addOffsets_in_range ((0 <? x_KU x) && x_addD x)
              (x_users x) (x_items x) (x_KU x) (x_numExamples x)
              (mxGetPr (fld_logthetaU s)) (mxGetPr (fld_d s)) (x_zU x) preds
              HN Hlen) as (p1 & -> & L1).
  { intros Hc. split; [apply andb_prop in Hc as [HK _]; lia|].
    intros e He. destruct (Hin e He) as (u & it & Hu & Hi & Hd & _).
    exists u, it. split; [exact Hu|]. split; [exact Hi|]. apply Hd. exact Hc. }
  destruct (cond_addOffsets_in_range ((0 <? x_KM x) && x_addC x)
              (x_items x) (x_users x) (x_KM x) (x_numExamples x)
              (mxGetPr (fld_logthetaM s)) (mxGetPr (fld_c s)) (x_zM x) p1
              HN L1) as (p2 & -> & L2).
  { intros Hc. split; [apply andb_prop in Hc as [HK _]; lia|].
    intros e He. destruct (Hin e He) as (u & it & Hu & Hi & _ & Hd & _).
    exists it, u. split; [exact Hi|]. split; [exact Hu|]. apply Hd. exact Hc. }
  destruct (x_addBase x) eqn:Hb; [|eauto].
  rewrite <- L2. destruct (Z.ltb_spec 0 (x_numFacs x)) as [HF|HF].
  - erewrite for_range_ext by (intros; apply base_body_slot).
    apply slots_total. intros j p Hp. apply lookup_lt_Some in Hp.
    destruct (Hin j) as (u & it & -> & -> & _ & _ & Hbase); [lia|].
    unfold add_opt.
    destruct (base_term_in_range u it (x_numFacs x) (x_chi x)
                (mxGetPr (fld_a s)) (mxGetPr (fld_b s)) HF (Hbase Hb HF))
      as [y ->].
    eauto.
  - rewrite chi_loop. eexists. split; [reflexivity|]. apply length_map.
Qed.

(** X4: a call whose index arrays stay inside the tables of every sample,
    on fewer than 2^31 examples, returns one prediction per example: no
    read leaves an array. *)
Theorem mexFunction_returns_in_range inp (x : Extracted) :
  extract inp = Some x ->
  0 <= mxGetM (prhs0 inp) < 2 ^ 31 ->
  (Z.to_nat (numSamples_of (prhs2 inp)) <= length (mxData (prhs2 inp)))%nat ->
  (forall e, (e < Z.to_nat (mxGetM (prhs0 inp)))%nat ->
     exists u it,
       mxData (prhs0 inp) !! e = Some u /\ mxData (prhs1 inp) !! e = Some it /\
       forall t s, mxData (prhs2 inp) !! t = Some s ->
         (t < Z.to_nat (numSamples_of (prhs2 inp)))%nat ->
         sample_in_range x s u it
           (topic_at (prhs3 inp) e) (topic_at (prhs4 inp) e)) ->
  exists out, mexFunction inp = Some out /\
              length out = Z.to_nat (mxGetM (prhs0 inp)).
Proof.
  intros Ex HN HT Hin.
  pose proof (extract_numExamples _ _ Ex) as Hn.
  assert (Hx : x_users x = mxData (prhs0 inp) /\
               x_items x = mxData (prhs1 inp) /\
               x_KU x < 2 ^ 31 /\ x_KM x < 2 ^ 31).
  { apply extract_inv in Ex as (s0 &?&?&?&?&?&?&?&?&?& ->). cbn.
    pose proof (to_int_range (mxGetM (fld_logthetaU s0))).
    pose proof (to_int_range (mxGetM (fld_logthetaM s0))).
    repeat split; lia. }
  destruct Hx as (Hu & Hi & HKU & HKM).
  unfold mexFunction, accumulate. rewrite Ex.
  destruct (for_range_total_inv
              (fun st : list double => length st = Z.to_nat (x_numExamples x))
              (sample_body x (prhs2 inp))
              (Z.to_nat (numSamples_of (prhs2 inp))) 0
              (replicate (Z.to_nat (x_numExamples x)) dzero))
    as (sum & -> & Lsum).
  - intros t st Ht Hst.
    destruct (lookup_lt_is_Some_2 (mxData (prhs2 inp)) t) as [s Hs]; [lia|].
    apply (sample_body_in_range x (prhs2 inp) t s st);
      try assumption; [lia|].
    intros e He. rewrite Hn in He.
    destruct (Hin e He) as (u & it & Hue & Hie & Hs').
    exists u, it. rewrite Hu, Hi. split; [exact Hue|]. split; [exact Hie|].
    rewrite (extract_dyad _ _ _ Ex). cbn [dy_zU dy_zM].
    apply (Hs' t s Hs). lia.
  - apply length_replicate.
  - rewrite Hn in Lsum. destruct (1 <? numSamples_of (prhs2 inp)).
    + rewrite <- Lsum, div_loop. eexists. split; [reflexivity|].
      apply length_map.
    + eauto.
Qed.

(** ** What a call leaves alone *)

(** X5: [addOffsets] keeps the length of [preds] and every slot from
    [numExamples] on. *)
Theorem addOffsets_keeps_other_slots users items KU numExamples lt d zU
    preds preds' :
  addOffsets users items KU numExamples lt d zU preds = Some preds' ->
  length preds' = length preds /\
  forall j, (Z.to_nat (to_mwSize numExamples) <= j)%nat ->
            preds' !! j = preds !! j.
Proof.
  intros H. split; [eapply addOffsets_length; eauto|].
  intros j Hj. rewrite (addOffsets_lookup _ _ _ _ _ _ _ _ _ H j).
  unfold stage. destruct (decide _); [lia|reflexivity].
Qed.

(** X6: the output of a call that returns has one entry per example. *)
Theorem output_has_one_entry_per_example inp out :
  mexFunction inp = Some out ->
  length out = Z.to_nat (mxGetM (prhs0 inp)).
Proof.
  unfold mexFunction. destruct (accumulate inp) as [sum|] eqn:Hacc;
    [|discriminate].
  pose proof (accumulate_length _ _ Hacc) as Hlen.
  destruct (1 <? numSamples_of (prhs2 inp)).
  - rewrite <- Hlen at 1. rewrite div_loop. intros [= <-].
    rewrite length_map. exact Hlen.
  - intros [= <-]. exact Hlen.
Qed.

(** Two extractions that differ in fields a sample does not use. *)
Lemma sample_body_same_uses (x1 x2 : Extracted) samples t preds :
  x_users x1 = x_users x2 -> x_items x1 = x_items x2 ->
  x_numExamples x1 = x_numExamples x2 -> x_chi x1 = x_chi x2 ->
  x_KU x1 = x_KU x2 -> x_KM x1 = x_KM x2 -> x_numFacs x1 = x_numFacs x2 ->
  x_addBase x1 = x_addBase x2 ->
  (0 <? x_KU x1) && x_addD x1 = (0 <? x_KU x2) && x_addD x2 ->
  (0 <? x_KM x1) && x_addC x1 = (0 <? x_KM x2) && x_addC x2 ->
  ((0 <? x_KU x1) && x_addD x1 = true -> x_zU x1 = x_zU x2) ->
  ((0 <? x_KM x1) && x_addC x1 = true -> x_zM x1 = x_zM x2) ->
  sample_body x1 samples t preds = sample_body x2 samples t preds.
Proof.
  intros Hu Hi Hn Hchi HKU HKM HF Hb Hd Hc HzU HzM. unfold sample_body.
  rewrite <- Hd, <- Hc, <- Hu, <- Hi, <- Hn, <- Hchi, <- HKU, <- HKM, <- HF,
    <- Hb.
  destruct (mxData samples !! t) as [s|]; [|reflexivity].
  destruct ((0 <? x_KU x1) && x_addD x1);
    destruct ((0 <? x_KM x1) && x_addC x1);
    rewrite <- ?HzU, <- ?HzM by reflexivity; reflexivity.
Qed.

(** X7: without row topics ([KU <= 0]) the flag [addDoffsets] has no
    effect on a call, and without column topics ([KM <= 0]) the flag
    [addCoffsets] has none. *)
Theorem offset_flags_without_topics_have_no_effect
    inp s0 (addBase addC1 addD1 addC2 addD2 : bool) (add1 add2 : mxArray bool)
    (rest1 rest2 : list bool) :
  mxData (prhs2 inp) !! 0%nat = Some s0 ->
  mxData add1 = addBase :: addC1 :: addD1 :: rest1 ->
  mxData add2 = addBase :: addC2 :: addD2 :: rest2 ->
  (to_int (mxGetM (fld_logthetaU s0)) <= 0 \/ addD1 = addD2) ->
  (to_int (mxGetM (fld_logthetaM s0)) <= 0 \/ addC1 = addC2) ->
  mexFunction (with_add inp add1) = mexFunction (with_add inp add2).
Proof.
  intros H0 Ha1 Ha2 HD HC. unfold mexFunction, accumulate.
  cbn [with_add prhs0 prhs1 prhs2 prhs3 prhs4 prhs5].
  destruct (mxGetPr (fld_chi s0) !! 0%nat) as [chi|] eqn:Hchi.
  - rewrite (extract_Some (with_add inp add1) s0 chi addBase addC1 addD1),
      (extract_Some (with_add inp add2) s0 chi addBase addC2 addD2);
      cbn [with_add prhs0 prhs1 prhs2 prhs3 prhs4 prhs5];
      try assumption; try (rewrite ?Ha1, ?Ha2; reflexivity).
    cbn [x_numExamples x_scalars].
    match goal with
    | |- match ?a with _ => _ end = match ?b with _ => _ end =>
        assert (a = b) as ->; [|reflexivity]
    end.
    apply for_range_ext. intros t st _.
    apply sample_body_same_uses; try reflexivity;
      cbn [x_KU x_KM x_addC x_addD x_scalars].
    + destruct HD as [HK| ->]; [|reflexivity].
      destruct (Z.ltb_spec 0 (to_int (mxGetM (fld_logthetaU s0))));
        [lia|reflexivity].
    + destruct HC as [HK| ->]; [|reflexivity].
      destruct (Z.ltb_spec 0 (to_int (mxGetM (fld_logthetaM s0))));
        [lia|reflexivity].
  - unfold extract. cbn [with_add prhs0 prhs1 prhs2 prhs3 prhs4 prhs5].
    rewrite H0, Hchi. reflexivity.
Qed.

(** X8: a topic array whose offsets are off (by the flag, or for want of
    topics) is not consulted: any other array in its place gives the same
    result. *)
Theorem topics_of_disabled_offsets_are_not_read
    inp (x : Extracted) (zU zM : mxArray Z) :
  extract inp = Some x ->
  ((0 <? x_KU x) && x_addD x = false \/
   mxGetData zU = mxGetData (prhs3 inp)) ->
  ((0 <? x_KM x) && x_addC x = false \/
   mxGetData zM = mxGetData (prhs4 inp)) ->
  mexFunction (with_zM (with_zU inp zU) zM) = mexFunction inp.
Proof.
  intros Ex HU HM.
  apply extract_inv in Ex
    as (s0 & chi & ab & ac & ad & H0 & Hchi & Hb & Hc & Hd & ->).
  cbn [x_KU x_KM x_addC x_addD x_scalars] in HU, HM.
  unfold mexFunction, accumulate.
  rewrite (extract_Some (with_zM (with_zU inp zU) zM) s0 chi ab ac ad),
    (extract_Some inp s0 chi ab ac ad) by assumption.
  cbn [with_zU with_zM prhs0 prhs1 prhs2 prhs3 prhs4 prhs5
       x_numExamples x_scalars].
  match goal with
  | |- match ?a with _ => _ end = match ?b with _ => _ end =>
      assert (a = b) as ->; [|reflexivity]
  end.
  apply for_range_ext. intros t st _.
  apply sample_body_same_uses; try reflexivity;
    cbn [x_KU x_KM x_addC x_addD x_zU x_zM x_scalars]; intros Hon.
  - destruct HU as [Hoff|Hz]; [congruence|exact Hz].
  - destruct HM as [Hoff|Hz]; [congruence|exact Hz].
Qed.

(** X9: of the struct array [samples] a call uses its larger dimension
    [T] and its first [T] elements only: a transposed array, or one with
    other elements after the first [T], gives the same result. *)
Theorem only_the_first_samples_are_read inp (samples' : mxArray Sample) :
  1 <= numSamples_of (prhs2 inp) ->
  numSamples_of samples' = numSamples_of (prhs2 inp) ->
  take (Z.to_nat (numSamples_of (prhs2 inp))) (mxData samples')
  = take (Z.to_nat (numSamples_of (prhs2 inp))) (mxData (prhs2 inp)) ->
  mexFunction (with_samples inp samples') = mexFunction inp.
Proof.
  intros HT HT' Htake.
  assert (Hlook : forall t, (t < Z.to_nat (numSamples_of (prhs2 inp)))%nat ->
             mxData samples' !! t = mxData (prhs2 inp) !! t).
  { intros t Ht.
    rewrite <- (lookup_take_lt (mxData samples') _ _ Ht),
            <- (lookup_take_lt (mxData (prhs2 inp)) _ _ Ht), Htake.
    reflexivity. }
  unfold mexFunction, accumulate, extract.
  cbn [with_samples prhs0 prhs1 prhs2 prhs3 prhs4 prhs5].
  rewrite HT', (Hlook 0%nat) by lia.
  destruct (mxData (prhs2 inp) !! 0%nat) as [s0|]; [|reflexivity].
  destruct (mxGetPr (fld_chi s0) !! 0%nat) as [chi|]; [|reflexivity].
  destruct (mxData (prhs5 inp) !! 0%nat) as [ab|]; [|reflexivity].
  destruct (mxData (prhs5 inp) !! 1%nat) as [ac|]; [|reflexivity].
  destruct (mxData (prhs5 inp) !! 2%nat) as [ad|]; [|reflexivity].
  match goal with
  | |- match ?a with _ => _ end = match ?b with _ => _ end =>
      assert (a = b) as ->; [|reflexivity]
  end.
  apply for_range_ext. intros t st Ht. unfold sample_body.
  rewrite Hlook by lia. reflexivity.
Qed.

(** X10: an empty batch returns the empty vector, whatever the tables of
    the samples hold: none is read. *)
Theorem empty_batch_returns_empty inp (x : Extracted) :
  extract inp = Some x ->
  mxGetM (prhs0 inp) = 0 ->
  (Z.to_nat (numSamples_of (prhs2 inp)) <= length (mxData (prhs2 inp)))%nat ->
  mexFunction inp = Some [].
Proof.
  intros Ex HN HT. pose proof (extract_numExamples _ _ Ex) as Hn.
  unfold mexFunction, accumulate. rewrite Ex, Hn, HN.
  change (Z.to_nat 0) with 0%nat. cbn [replicate].
  rewrite for_range_id.
  - destruct (1 <? numSamples_of (prhs2 inp)); reflexivity.
  - intros t Ht.
    destruct (lookup_lt_is_Some_2 (mxData (prhs2 inp)) t) as [s Hs]; [lia|].
    unfold sample_body. rewrite Hs, Hn, HN. unfold addOffsets.
    change (Z.to_nat (to_mwSize (to_int 0))) with 0%nat.
    change (Z.to_nat 0) with 0%nat. cbn [for_range].
    destruct ((0 <? x_KU x) && x_addD x), (x_zU x), (1 <? x_KU x),
      ((0 <? x_KM x) && x_addC x), (x_zM x), (1 <? x_KM x),
      (x_addBase x), (0 <? x_numFacs x); reflexivity.
Qed.

(** ** Reads outside the tables *)


Lemma rd_Some_lt {T : Type} (l : list T) (i : Z) (x : T) :
  rd l i = Some x -> 0 <= i < Z.of_nat (length l).
Proof.
  unfold rd. destruct (Z.ltb_spec i 0) as [Hneg|Hpos]; [discriminate|].
  intros Hl. apply lookup_lt_Some in Hl. lia.
Qed.

(** An inner product that runs past the end of a vector fails. *)
Lemma ddot_loop_out_of_range n (x y : list double) : forall ix iy dtemp,
  Z.of_nat (length x) < ix + Z.of_nat n \/
  Z.of_nat (length y) < iy + Z.of_nat n ->
  (0 < n)%nat ->
  ddot_loop n x ix y iy dtemp = None.
Proof.
  induction n as [|n IH]; intros ix iy dtemp Hout Hn; [lia|].
  cbn [ddot_loop].
  destruct (rd x ix) as [xv|] eqn:Ex; [|reflexivity].
  destruct (rd y iy) as [yv|] eqn:Ey; [|reflexivity].
  apply rd_Some_lt in Ex. apply rd_Some_lt in Ey.
  apply IH; lia.
Qed.

(** X11: when the factorization is on with [F > 0] and the factor vector
    of some example lies beyond the end of [a] or of [b] in some sample
    (the index is too large, or it is 0: indices count from 1 and
    [0 - 1] wraps to [2^32 - 1]), the call fails: it reads outside the
    table. *)
Theorem factor_index_out_of_range_fails inp (x : Extracted) t s e u it :
  extract inp = Some x ->
  x_addBase x = true -> 0 < x_numFacs x ->
  (t < Z.to_nat (numSamples_of (prhs2 inp)))%nat ->
  mxData (prhs2 inp) !! t = Some s ->
  (e < Z.to_nat (mxGetM (prhs0 inp)))%nat ->
  mxData (prhs0 inp) !! e = Some u ->
  mxData (prhs1 inp) !! e = Some it ->
  Z.of_nat (length (mxGetPr (fld_a s)))
    < x_numFacs x * (wrap32 (u - 1) + 1) \/
  Z.of_nat (length (mxGetPr (fld_b s)))
    < x_numFacs x * (wrap32 (it - 1) + 1) ->
  mexFunction inp = None.
Proof.
  intros Ex Hb HF Ht Hs He Hu Hi Hout.
  pose proof (extract_numExamples _ _ Ex) as Hn.
  assert (Hx : x_users x = mxData (prhs0 inp) /\
               x_items x = mxData (prhs1 inp)).
  { apply extract_inv in Ex as (s0 & c0 & b0 & b1 & b2 & _ & _ & _ & _ & _ & ->).
    split; reflexivity. }
  destruct Hx as [Hxu Hxi].
  unfold mexFunction, accumulate. rewrite Ex.
  rewrite (for_range_fail (sample_body x (prhs2 inp)) _ t); [reflexivity|lia|].
  intros st. unfold sample_body. rewrite Hs.
  destruct (if (0 <? x_KU x) && x_addD x then _ else _) as [p1|];
    [|reflexivity].
  destruct (if (0 <? x_KM x) && x_addC x then _ else _) as [p2|];
    [|reflexivity].
  rewrite Hb. destruct (Z.ltb_spec 0 (x_numFacs x)); [|lia].
  apply (for_range_fail _ _ e); [rewrite Hn; lia|].
  intros st'. unfold base_body. rewrite Hxu, Hxi, Hu, Hi.
  unfold ddot. rewrite ddot_loop_out_of_range; [reflexivity| |lia].
  rewrite Z2Nat.id by lia. nia.
Qed.


(** ** The branch of a single topic *)

(** X13: with no topic assignments and a single topic ([KU = 1]),
    [addOffsets] succeeds on in-range inputs and adds to the slot of every
    example [e] the entry [d[items[e], 1]]; the result is the same whatever
    [logthetaU] and [users] hold: no exponential is taken. *)
Theorem single_topic_adds_only_row
    (items : list Z) (numExamples : Z) (d : list double) preds :
  0 <= numExamples < 2 ^ 31 ->
  length preds = Z.to_nat numExamples ->
  (forall e, (e < Z.to_nat numExamples)%nat ->
     exists it, items !! e = Some it /\ in_table d 1 it) ->
  exists preds',
    (forall users logthetaU,
       addOffsets users items 1 numExamples logthetaU d None preds
       = Some preds') /\
    length preds' = length preds /\
    forall e it p,
      items !! e = Some it -> preds !! e = Some p ->
      exists x, entry d 1 it 1 = Some x /\ preds' !! e = Some (dadd p x).
Proof.
  intros HN Hlen Hin.
  pose (g := fun e => add_opt (single_term (items !! e) 1 d)).
  assert (Hslots : forall users logthetaU,
             addOffsets users items 1 numExamples logthetaU d None preds
             = for_range (fun e => slot_update (g e) e) 0
                 (Z.to_nat numExamples) preds).
  { intros. rewrite addOffsets_slots, to_mwSize_int by exact HN. reflexivity. }
  destruct (for_range_slot_total g (Z.to_nat numExamples) 0 preds)
    as [preds' Hrun].
  { intros j Hj. destruct (Hin j) as (it & Hit & Ht); [lia|].
    destruct (lookup_lt_is_Some_2 preds j) as [p Hp]; [lia|].
    destruct (single_term_entry it 1 d ltac:(lia) Ht) as (x & _ & Hx).
    exists p, (dadd p x). split; [exact Hp|].
    unfold g, add_opt. rewrite Hit, Hx. reflexivity. }
  exists preds'. split; [|split].
  - intros. rewrite Hslots. exact Hrun.
  - eapply for_range_slot_length; eauto.
  - intros e it p Hit Hp.
    apply lookup_lt_Some in Hp as Hlt.
    destruct (Hin e) as (it' & Hit' & Ht); [lia|].
    assert (it' = it) as -> by congruence.
    destruct (single_term_entry it 1 d ltac:(lia) Ht) as (x & Hentry & Hx).
    exists x. split; [exact Hentry|].
    rewrite (for_range_slot_lookup _ _ _ _ _ Hrun e).
    destruct (decide _); [|lia].
    rewrite Hp. unfold g, add_opt. rewrite Hit, Hx. reflexivity.
Qed.

(** ** A sample returns when its slots are defined *)

Lemma sample_slot_stages sc s dy j o :
  sample_slot sc s dy j o
  = base_stage sc s dy j (c_stage sc s dy j (d_stage sc s dy j o)).
Proof. reflexivity. Qed.

Lemma stage_None n j (g : double -> option double) : stage n j g None = None.
Proof. unfold stage. destruct (decide _); reflexivity. Qed.

Lemma d_stage_strict sc s dy j o y :
  d_stage sc s dy j o = Some y -> exists p, o = Some p.
Proof.
  destruct o as [p|]; [eauto|]. unfold d_stage.
  destruct (_ && _); rewrite ?stage_None; discriminate.
Qed.

Lemma c_stage_strict sc s dy j o y :
  c_stage sc s dy j o = Some y -> exists p, o = Some p.
Proof.
  destruct o as [p|]; [eauto|]. unfold c_stage.
  destruct (_ && _); rewrite ?stage_None; discriminate.
Qed.

Lemma base_stage_strict sc s dy j o y :
  base_stage sc s dy j o = Some y -> exists p, o = Some p.
Proof.
  destruct o as [p|]; [eauto|]. unfold base_stage.
  destruct (x_addBase sc); [|discriminate].
  destruct (0 <? x_numFacs sc); rewrite stage_None; discriminate.
Qed.

Lemma offset_count_small (sc : Scalars) :
  0 <= x_numExamples sc < 2 ^ 31 ->
  offset_count sc = Z.to_nat (x_numExamples sc).
Proof.
  intros HN. unfold offset_count.
  rewrite to_int_small, to_mwSize_int by exact HN. reflexivity.
Qed.

(** A conditional call of [addOffsets] whose slot updates are defined. *)
Lemma cond_addOffsets_returns (c : bool) users items KU numExamples lt d zU
    preds :
  0 <= numExamples < 2 ^ 31 ->
  length preds = Z.to_nat numExamples ->
  (c = true -> forall j p, preds !! j = Some p ->
     exists y, offset_slot (users !! j) (items !! j)
                 (option_map (fun z : list Z => z !! j) zU) KU lt d p
               = Some y) ->
  exists preds',
    (if c then addOffsets users items KU numExamples lt d zU preds
     else Some preds) = Some preds'.
Proof.
  intros HN Hlen Hg. destruct c; [|eauto].
  rewrite addOffsets_slots, to_mwSize_int, <- Hlen by exact HN.
  destruct (slots_total (fun e => offset_slot (users !! e) (items !! e)
              (option_map (fun z : list Z => z !! e) zU) KU lt d) preds)
    as (p1 & H1 & _); [|eauto].
  intros j p Hp. apply (Hg eq_refl j p Hp).
Qed.

(** A sample returns on a batch all of whose slots it can compute. *)
Lemma sample_body_returns_of_slots (x : Extracted) samples t s preds :
  0 <= x_numExamples x < 2 ^ 31 ->
  length preds = Z.to_nat (x_numExamples x) ->
  mxData samples !! t = Some s ->
  (forall j p, preds !! j = Some p ->
     exists y, sample_slot x s (dyad_of x j) j (Some p) = Some y) ->
  exists preds', sample_body x samples t preds = Some preds'.
Proof.
  intros HN Hlen Hs Hslots.
  assert (Hj : forall j p, preds !! j = Some p ->
                 (j < Z.to_nat (x_numExamples x))%nat).
  { intros j p Hp. apply lookup_lt_Some in Hp. lia. }
  unfold sample_body. rewrite Hs, to_int_small by exact HN.
  (* d offsets *)
  destruct (cond_addOffsets_returns ((0 <? x_KU x) && x_addD x)
              (x_users x) (x_items x) (x_KU x) (x_numExamples x)
              (mxGetPr (fld_logthetaU s)) (mxGetPr (fld_d s)) (x_zU x) preds
              HN Hlen) as [p1 E1].
  { intros Hc j p Hp. destruct (Hslots j p Hp) as [y Hy].
    rewrite sample_slot_stages in Hy.
    apply base_stage_strict in Hy as [y2 Hy].
    apply c_stage_strict in Hy as [y1 Hy].
    unfold d_stage in Hy. rewrite Hc, offset_count_small in Hy by exact HN.
    unfold stage in Hy. destruct (decide _) as [_|Hge]; [eauto|].
    exfalso. apply Hge. eapply Hj; eauto. }
  rewrite E1. apply cond_addOffsets in E1 as [L1 K1].
  assert (K1' : forall j, p1 !! j = d_stage x s (dyad_of x j) j (preds !! j)).
  { intros j. rewrite K1. unfold d_stage. rewrite offset_count_small by exact HN.
    rewrite to_mwSize_int by exact HN. reflexivity. }
  (* c offsets *)
  destruct (cond_addOffsets_returns ((0 <? x_KM x) && x_addC x)
              (x_items x) (x_users x) (x_KM x) (x_numExamples x)
              (mxGetPr (fld_logthetaM s)) (mxGetPr (fld_c s)) (x_zM x) p1
              HN ltac:(congruence)) as [p2 E2].
  { intros Hc j p1v Hp1.
    destruct (lookup_lt_is_Some_2 preds j) as [p Hp];
      [apply lookup_lt_Some in Hp1; lia|].
    destruct (Hslots j p Hp) as [y Hy].
    rewrite sample_slot_stages, <- Hp, <- K1', Hp1 in Hy.
    apply base_stage_strict in Hy as [y2 Hy].
    unfold c_stage in Hy. rewrite Hc, offset_count_small in Hy by exact HN.
    unfold stage in Hy. destruct (decide _) as [_|Hge]; [eauto|].
    exfalso. apply Hge. eapply Hj; eauto. }
  rewrite E2. apply cond_addOffsets in E2 as [L2 K2].
  assert (K2' : forall j, p2 !! j = c_stage x s (dyad_of x j) j (p1 !! j)).
  { intros j. rewrite K2. unfold c_stage. rewrite offset_count_small by exact HN.
    rewrite to_mwSize_int by exact HN. reflexivity. }
  (* factorization and global offset *)
  destruct (x_addBase x) eqn:Hb; [|eauto].
  assert (L : Z.to_nat (x_numExamples x) = length p2) by congruence.
  rewrite L. destruct (0 <? x_numFacs x) eqn:HF.
  - erewrite for_range_ext by (intros; apply base_body_slot).
    destruct (slots_total (fun e => add_opt (base_term (x_users x !! e)
                (x_items x !! e) (x_numFacs x) (x_chi x)
                (mxGetPr (fld_a s)) (mxGetPr (fld_b s)))) p2)
      as (p3 & H3 & _); [|eauto].
    intros j p2v Hp2.
    destruct (lookup_lt_is_Some_2 preds j) as [p Hp];
      [apply lookup_lt_Some in Hp2; lia|].
    destruct (Hslots j p Hp) as [y Hy].
    rewrite sample_slot_stages, <- Hp, <- K1', <- K2', Hp2 in Hy.
    unfold base_stage in Hy. rewrite Hb, HF in Hy.
    unfold stage in Hy. destruct (decide _) as [_|Hge]; [eauto|].
    exfalso. apply Hge. eapply Hj; eauto.
  - rewrite chi_loop. eauto.
Qed.

(** Two samples that act alike on every slot return the same thing. *)
Lemma sample_body_eq_of_slots (x1 x2 : Extracted) samples1 samples2 t s1 s2
    preds :
  x_numExamples x1 = x_numExamples x2 ->
  0 <= x_numExamples x1 < 2 ^ 31 ->
  length preds = Z.to_nat (x_numExamples x1) ->
  mxData samples1 !! t = Some s1 ->
  mxData samples2 !! t = Some s2 ->
  (forall j o, sample_slot x1 s1 (dyad_of x1 j) j o
               = sample_slot x2 s2 (dyad_of x2 j) j o) ->
  sample_body x1 samples1 t preds = sample_body x2 samples2 t preds.
Proof.
  intros Hn HN Hlen Hs1 Hs2 Hslot.
  assert (Hdir : forall (xa xb : Extracted) sa sb la lb ra,
             x_numExamples xa = x_numExamples x1 ->
             x_numExamples xb = x_numExamples x1 ->
             mxData la !! t = Some sa -> mxData lb !! t = Some sb ->
             (forall j o, sample_slot xa sa (dyad_of xa j) j o
                          = sample_slot xb sb (dyad_of xb j) j o) ->
             sample_body xa la t preds = Some ra ->
             sample_body xb lb t preds = Some ra).
  { intros xa xb sa sb la lb ra Ha Hb Hsa Hsb Heq Hrun.
    apply sample_body_lookup in Hrun as (sa' & Hsa' & La & Ka).
    assert (sa' = sa) as -> by congruence.
    destruct (sample_body_returns_of_slots xb lb t sb preds) as [rb Hrb];
      [rewrite Hb; exact HN|rewrite Hb; exact Hlen|exact Hsb| |].
    - intros j p Hp. rewrite <- Heq, <- Hp, <- Ka.
      apply lookup_lt_is_Some_2. rewrite La. eapply lookup_lt_Some; eauto.
    - rewrite Hrb. f_equal.
      apply sample_body_lookup in Hrb as (sb' & Hsb' & Lb & Kb).
      assert (sb' = sb) as -> by congruence.
      apply list_eq. intros j. rewrite Ka, Kb, Heq. reflexivity. }
  destruct (sample_body x1 samples1 t preds) as [r1|] eqn:E1.
  - symmetry.
    apply (Hdir x1 x2 s1 s2 samples1 samples2 r1 eq_refl (eq_sym Hn)
             Hs1 Hs2 Hslot E1).
  - destruct (sample_body x2 samples2 t preds) as [r2|] eqn:E2;
      [|reflexivity].
    rewrite (Hdir x2 x1 s2 s1 samples2 samples1 r2 (eq_sym Hn) eq_refl
               Hs2 Hs1 (fun j o => eq_sym (Hslot j o)) E2) in E1.
    discriminate.
Qed.

End Safety.

(** * The roles of users and items *)

Section Symmetry.
Context {A : Arith}.
Hypothesis Hassoc : forall x y z, dadd (dadd x y) z = dadd x (dadd y z).
Hypothesis Hcomm : forall x y, dadd x y = dadd y x.
Hypothesis Hzero_r : forall x, dadd x dzero = x.
Hypothesis Hmul_comm : forall x y, dmul x y = dmul y x.
Implicit Types (preds : list double) (p : double) (e j : nat)
  (inp : MexInput).

Lemma Hzero_l_of_comm : forall x, dadd dzero x = x.
Proof. intros x. rewrite Hcomm. apply Hzero_r. Qed.

Lemma ddot_loop_comm n (x y : list double) : forall ix iy dtemp,
  ddot_loop n x ix y iy dtemp = ddot_loop n y iy x ix dtemp.
Proof.
  induction n as [|n IH]; intros ix iy dtemp; cbn [ddot_loop]; [reflexivity|].
  destruct (rd x ix) as [xv|], (rd y iy) as [yv|]; try reflexivity.
  rewrite (Hmul_comm xv yv). apply IH.
Qed.

Lemma base_term_swap ou oit numFacs chi a b :
  base_term oit ou numFacs chi b a = base_term ou oit numFacs chi a b.
Proof.
  unfold base_term, ddot.
  destruct ou as [u|], oit as [it|]; try reflexivity.
  rewrite ddot_loop_comm. reflexivity.
Qed.

(** Two additive effects on a slot commute. *)
Lemma additive_commute (F G : option double -> option double) :
  additive F -> additive G -> forall o, F (G o) = G (F o).
Proof.
  intros [F0 FA] [G0 GA] [p|].
  - rewrite (GA p), (FA p).
    destruct (G (Some dzero)) as [c2|] eqn:EG, (F (Some dzero)) as [c1|] eqn:EF.
    + rewrite (FA (dadd p c2)), (GA (dadd p c1)).
      rewrite !Hassoc, (Hcomm c1 c2). reflexivity.
    + rewrite (FA (dadd p c2)), G0. reflexivity.
    + rewrite (GA (dadd p c1)), F0. reflexivity.
    + rewrite F0, G0. reflexivity.
  - rewrite F0, G0, F0. reflexivity.
Qed.

Lemma d_stage_additive sc s dy j : additive (d_stage sc s dy j).
Proof.
  unfold d_stage. destruct (_ && _).
  - apply (additive_stage Hzero_r). intros p.
    apply (offset_slot_additive Hassoc Hzero_r Hzero_l_of_comm).
  - apply (additive_id Hzero_r).
Qed.

Lemma c_stage_additive sc s dy j : additive (c_stage sc s dy j).
Proof.
  unfold c_stage. destruct (_ && _).
  - apply (additive_stage Hzero_r). intros p.
    apply (offset_slot_additive Hassoc Hzero_r Hzero_l_of_comm).
  - apply (additive_id Hzero_r).
Qed.

(** A sample with the roles exchanged acts on a slot like the sample. *)
Lemma sample_slot_swap (x x' : Extracted) s j o :
  x_users x' = x_items x -> x_items x' = x_users x ->
  x_zU x' = x_zM x -> x_zM x' = x_zU x ->
  x_numExamples x' = x_numExamples x -> x_chi x' = x_chi x ->
  x_KU x' = x_KM x -> x_KM x' = x_KU x -> x_numFacs x' = x_numFacs x ->
  x_addBase x' = x_addBase x ->
  x_addC x' = x_addD x -> x_addD x' = x_addC x ->
  sample_slot x' (swap_sample s) (dyad_of x' j) j o
  = sample_slot x s (dyad_of x j) j o.
Proof.
  intros Hu Hi HzU HzM Hn Hchi HKU HKM HF Hb Hc Hd.
  rewrite !sample_slot_stages.
  assert (Hds : forall o', d_stage x' (swap_sample s) (dyad_of x' j) j o'
                           = c_stage x s (dyad_of x j) j o').
  { intros o'. unfold d_stage, c_stage, offset_count, dyad_of.
    cbn [dy_user dy_item dy_zU dy_zM fld_logthetaU fld_logthetaM fld_c fld_d
         swap_sample].
    rewrite Hu, Hi, HzU, Hn, HKU, Hd. reflexivity. }
  assert (Hcs : forall o', c_stage x' (swap_sample s) (dyad_of x' j) j o'
                           = d_stage x s (dyad_of x j) j o').
  { intros o'. unfold d_stage, c_stage, offset_count, dyad_of.
    cbn [dy_user dy_item dy_zU dy_zM fld_logthetaU fld_logthetaM fld_c fld_d
         swap_sample].
    rewrite Hu, Hi, HzM, Hn, HKM, Hc. reflexivity. }
  assert (Hbs : forall o', base_stage x' (swap_sample s) (dyad_of x' j) j o'
                           = base_stage x s (dyad_of x j) j o').
  { intros o'. unfold base_stage, dyad_of.
    cbn [dy_user dy_item fld_a fld_b swap_sample].
    rewrite Hu, Hi, Hn, Hchi, HF, Hb, base_term_swap. reflexivity. }
  rewrite Hbs, Hcs, Hds. f_equal.
  apply additive_commute; [apply d_stage_additive|apply c_stage_additive].
Qed.

(** X14: in exact arithmetic the roles of users and items can be
    exchanged: the call on the items as users, with the tables of every
    sample and the topic arrays exchanged and the two offset flags
    exchanged, returns what the call returns. *)
Theorem roles_of_users_and_items_can_be_swapped inp :
  0 <= mxGetM (prhs0 inp) < 2 ^ 31 ->
  mxGetM (prhs1 inp) = mxGetM (prhs0 inp) ->
  (forall s0, mxData (prhs2 inp) !! 0%nat = Some s0 ->
              mxGetM (fld_b s0) = mxGetM (fld_a s0)) ->
  mexFunction (swap_roles inp) = mexFunction inp.
Proof.
  intros HN HM HF. unfold mexFunction, accumulate.
  assert (HT : numSamples_of (prhs2 (swap_roles inp))
               = numSamples_of (prhs2 inp)) by reflexivity.
  assert (Hlook : forall t, mxData (prhs2 (swap_roles inp)) !! t
                            = swap_sample <$> mxData (prhs2 inp) !! t).
  { intros t. cbn [swap_roles prhs2 mxData].
    change (map ?f ?l) with (f <$> l). apply list_lookup_fmap. }
  destruct (extract inp) as [x|] eqn:Ex.
  - apply extract_inv in Ex
      as (s0 & chi & ab & ac & ad & H0 & Hchi & Hb & Hc & Hd & Hx).
    assert (Hadd : exists rest, mxData (prhs5 inp) = ab :: ac :: ad :: rest).
    { destruct (mxData (prhs5 inp)) as [|b0 [|b1 [|b2 rest]]];
        try discriminate.
      cbn in Hb, Hc, Hd. exists rest. congruence. }
    destruct Hadd as [rest Hadd].
    rewrite (extract_Some (swap_roles inp) (swap_sample s0) chi ab ad ac);
      [|rewrite Hlook, H0; reflexivity|exact Hchi
       |cbn [swap_roles prhs5 mxData]; rewrite Hadd; reflexivity..].
    rewrite HT. cbn [x_numExamples x_scalars].
    cbn [swap_roles prhs0 prhs1 prhs3 prhs4 fld_logthetaU fld_logthetaM fld_a
         swap_sample].
    rewrite HM, (HF s0 H0). subst x. cbn [x_numExamples x_scalars].
    match goal with
    | |- match ?a with _ => _ end = match ?b with _ => _ end =>
        assert (a = b) as ->; [|reflexivity]
    end.
    apply (for_range_ext_inv
             (fun st => length st = Z.to_nat (mxGetM (prhs0 inp)))).
    + intros t st _ Hst.
      destruct (mxData (prhs2 inp) !! t) as [s|] eqn:Hs.
      * apply (sample_body_eq_of_slots _ _ _ _ t (swap_sample s) s);
          try reflexivity; try assumption.
        -- rewrite Hlook, Hs. reflexivity.
        -- intros j o. apply sample_slot_swap; reflexivity.
      * unfold sample_body. rewrite Hlook, Hs. reflexivity.
    + intros t st st' _ Hst Hrun. rewrite <- Hst.
      eapply sample_body_length; eauto.
    + apply length_replicate.
  - assert (extract (swap_roles inp) = None) as ->; [|reflexivity].
    unfold extract in *. rewrite Hlook.
    destruct (mxData (prhs2 inp) !! 0%nat) as [s0|]; [|reflexivity].
    cbn [fmap option_fmap option_map fld_chi swap_sample].
    destruct (mxGetPr (fld_chi s0) !! 0%nat); [|reflexivity].
    cbn [swap_roles prhs5 mxData].
    destruct (mxData (prhs5 inp)) as [|b0 [|b1 [|b2 rest]]];
      try reflexivity.
    discriminate.
Qed.

End Symmetry.

(** * The prediction as the sum of its contributions *)

Section Contributions.
Context {A : Arith}.
Hypothesis Hassoc : forall x y z, dadd (dadd x y) z = dadd x (dadd y z).
Hypothesis Hzero_r : forall x, dadd x dzero = x.
Hypothesis Hzero_l : forall x, dadd dzero x = x.
Implicit Types (preds : list double) (p : double) (e j : nat)
  (inp : MexInput).

Lemma base_stage_additive sc s dy j : additive (base_stage sc s dy j).
Proof.
  unfold base_stage. destruct (x_addBase sc); [|apply (additive_id Hzero_r)].
  destruct (0 <? x_numFacs sc); apply (additive_stage Hzero_r); intros p;
    apply (add_opt_additive Hzero_l).
Qed.

Lemma c_stage_additive_exact sc s dy j : additive (c_stage sc s dy j).
Proof.
  unfold c_stage. destruct (_ && _).
  - apply (additive_stage Hzero_r). intros p.
    apply (offset_slot_additive Hassoc Hzero_r Hzero_l).
  - apply (additive_id Hzero_r).
Qed.

(** A contribution that is switched off leaves the slot as it is. *)
Lemma d_stage_off sc s dy j o : x_addD sc = false -> d_stage sc s dy j o = o.
Proof. intros H. unfold d_stage. rewrite H, andb_false_r. reflexivity. Qed.

Lemma c_stage_off sc s dy j o : x_addC sc = false -> c_stage sc s dy j o = o.
Proof. intros H. unfold c_stage. rewrite H, andb_false_r. reflexivity. Qed.

Lemma base_stage_off sc s dy j o :
  x_addBase sc = false -> base_stage sc s dy j o = o.
Proof. intros H. unfold base_stage. rewrite H. reflexivity. Qed.

(** A call on one sample, on one slot of a batch. *)
Lemma one_sample_call_lookup inp s0 chi (b c d : bool) out j :
  numSamples_of (prhs2 inp) = 1 ->
  mxData (prhs2 inp) !! 0%nat = Some s0 ->
  mxGetPr (fld_chi s0) !! 0%nat = Some chi ->
  mexFunction (with_add inp (flags3 b c d)) = Some out ->
  exists x : Extracted,
    extract (with_add inp (flags3 b c d)) = Some x /\
    x_addBase x = b /\ x_addC x = c /\ x_addD x = d /\
    out !! j = sample_slot x s0 (dyad_of x j) j
                 (replicate (Z.to_nat (mxGetM (prhs0 inp))) dzero !! j).
Proof.
  intros HT H0 Hchi Hrun.
  apply mexFunction_lookup in Hrun as (x & Ex & K).
  exists x. split; [exact Ex|].
  rewrite (extract_Some (with_add inp (flags3 b c d)) s0 chi b c d) in Ex
    by (try assumption; reflexivity).
  injection Ex as <-. cbn [x_addBase x_addC x_addD x_scalars].
  repeat (split; [reflexivity|]).
  rewrite K. unfold output_slot.
  cbn [with_add prhs2 x_numExamples x_scalars prhs0].
  rewrite HT. change (1 <? 1) with false. change (Z.to_nat 1) with 1%nat.
  cbn [samples_slot]. rewrite H0. reflexivity.
Qed.

(** X15: on a single sample and in exact arithmetic, the prediction with
    any choice of flags is the sum of the three predictions with one of
    its flags each (the partial predictions): the [d] offsets, plus the
    [c] offsets, plus the factorization with the global offset. *)
Theorem prediction_is_sum_of_partial_predictions
    inp (addBase addC addD : bool) (od oc ob : list double) :
  numSamples_of (prhs2 inp) = 1 ->
  0 <= mxGetM (prhs0 inp) < 2 ^ 31 ->
  mexFunction (with_add inp (flags3 false false addD)) = Some od ->
  mexFunction (with_add inp (flags3 false addC false)) = Some oc ->
  mexFunction (with_add inp (flags3 addBase false false)) = Some ob ->
  mexFunction (with_add inp (flags3 addBase addC addD))
  = Some (zip_with dadd (zip_with dadd od oc) ob).
Proof.
  intros HT HN Hd Hc Hb.
  pose proof (mexFunction_length _ _ Hd) as Ld.
  pose proof (mexFunction_length _ _ Hc) as Lc.
  pose proof (mexFunction_length _ _ Hb) as Lb.
  cbn [with_add prhs0] in Ld, Lc, Lb.
  destruct (mexFunction_lookup _ _ Hd) as (x0 & Ex0 & _).
  apply extract_inv in Ex0
    as (s0 & chi & b0 & b1 & b2 & H0 & Hchi & _ & _ & _ & _).
  cbn [with_add prhs2] in H0.
  pose (x := {| x_users := mxData (prhs0 inp);
                x_items := mxData (prhs1 inp);
                x_zU := mxGetData (prhs3 inp);
                x_zM := mxGetData (prhs4 inp);
                x_scalars :=
                  {| x_numExamples := mxGetM (prhs0 inp);
                     x_chi := chi;
                     x_KU := to_int (mxGetM (fld_logthetaU s0));
                     x_KM := to_int (mxGetM (fld_logthetaM s0));
                     x_numFacs := to_ptrdiff (mxGetM (fld_a s0));
                     x_addBase := addBase;
                     x_addC := addC;
                     x_addD := addD |} |}).
  assert (Ex : extract (with_add inp (flags3 addBase addC addD)) = Some x).
  { rewrite (extract_Some (with_add inp (flags3 addBase addC addD))
               s0 chi addBase addC addD) by (try assumption; reflexivity).
    reflexivity. }
  (* the three partial predictions, slot by slot *)
  assert (Kd : forall j, od !! j
                 = d_stage x s0 (dyad_of x j) j
                     (replicate (Z.to_nat (mxGetM (prhs0 inp))) dzero !! j)).
  { intros j.
    destruct (one_sample_call_lookup inp s0 chi false false addD od j
                HT H0 Hchi Hd) as (x1 & E1 & _ & _ & _ & ->).
    rewrite (extract_Some (with_add inp (flags3 false false addD))
               s0 chi false false addD) in E1 by (try assumption; reflexivity).
    injection E1 as <-. rewrite sample_slot_stages.
    rewrite base_stage_off, c_stage_off by reflexivity. reflexivity. }
  assert (Kc : forall j, oc !! j
                 = c_stage x s0 (dyad_of x j) j
                     (replicate (Z.to_nat (mxGetM (prhs0 inp))) dzero !! j)).
  { intros j.
    destruct (one_sample_call_lookup inp s0 chi false addC false oc j
                HT H0 Hchi Hc) as (x1 & E1 & _ & _ & _ & ->).
    rewrite (extract_Some (with_add inp (flags3 false addC false))
               s0 chi false addC false) in E1 by (try assumption; reflexivity).
    injection E1 as <-. rewrite sample_slot_stages.
    rewrite base_stage_off, d_stage_off by reflexivity. reflexivity. }
  assert (Kb : forall j, ob !! j
                 = base_stage x s0 (dyad_of x j) j
                     (replicate (Z.to_nat (mxGetM (prhs0 inp))) dzero !! j)).
  { intros j.
    destruct (one_sample_call_lookup inp s0 chi addBase false false ob j
                HT H0 Hchi Hb) as (x1 & E1 & _ & _ & _ & ->).
    rewrite (extract_Some (with_add inp (flags3 addBase false false))
               s0 chi addBase false false) in E1
      by (try assumption; reflexivity).
    injection E1 as <-. rewrite sample_slot_stages.
    rewrite c_stage_off, d_stage_off by reflexivity. reflexivity. }
  (* the slot of the full prediction *)
  assert (Kfull : forall j, (j < Z.to_nat (mxGetM (prhs0 inp)))%nat ->
             sample_slot x s0 (dyad_of x j) j (Some dzero)
             = zip_with dadd (zip_with dadd od oc) ob !! j).
  { intros j Hj.
    destruct (lookup_lt_is_Some_2 od j) as [vd Hvd]; [lia|].
    destruct (lookup_lt_is_Some_2 oc j) as [vc Hvc]; [lia|].
    destruct (lookup_lt_is_Some_2 ob j) as [vb Hvb]; [lia|].
    rewrite !lookup_zip_with, Hvd, Hvc, Hvb. cbn [mbind option_bind].
    rewrite Kd, lookup_replicate_2 in Hvd by exact Hj.
    rewrite Kc, lookup_replicate_2 in Hvc by exact Hj.
    rewrite Kb, lookup_replicate_2 in Hvb by exact Hj.
    rewrite sample_slot_stages, Hvd.
    destruct (c_stage_additive_exact x s0 (dyad_of x j) j) as [_ Hca].
    rewrite (Hca vd), Hvc.
    destruct (base_stage_additive x s0 (dyad_of x j) j) as [_ Hba].
    rewrite (Hba (dadd vd vc)), Hvb. reflexivity. }
  (* the full call returns, with these slots *)
  unfold mexFunction, accumulate. rewrite Ex.
  cbn [with_add prhs0 prhs2 x_numExamples x_scalars x].
  rewrite HT. change (1 <? 1) with false. change (Z.to_nat 1) with 1%nat.
  cbn [for_range].
  destruct (sample_body_returns_of_slots x
              (prhs2 (with_add inp (flags3 addBase addC addD))) 0 s0
              (replicate (Z.to_nat (mxGetM (prhs0 inp))) dzero))
    as [r Hr]; [exact HN|apply length_replicate|exact H0| |].
  - intros j p Hp. apply lookup_replicate in Hp as [-> Hj].
    rewrite (Kfull j Hj). apply lookup_lt_is_Some_2.
    rewrite !length_zip_with. lia.
  - cbn [with_add prhs2] in Hr. rewrite Hr. f_equal.
    apply sample_body_lookup in Hr as (s' & Hs' & Lr & Kr).
    assert (s' = s0) as -> by congruence.
    rewrite length_replicate in Lr.
    apply list_eq. intros j. rewrite Kr.
    destruct (decide (j < Z.to_nat (mxGetM (prhs0 inp)))%nat) as [Hj|Hj].
    + rewrite lookup_replicate_2 by exact Hj. apply Kfull. exact Hj.
    + rewrite (proj1 (lookup_replicate_None _ _ _)) by lia.
      destruct (sample_slot_additive Hassoc Hzero_r Hzero_l x s0
                  (dyad_of x j) j) as [-> _].
      symmetry. apply lookup_ge_None_2. rewrite !length_zip_with. lia.
Qed.

End Contributions.

(** * Worked examples *)

(** C8: on the scenario of the specification (two dyads with rows 1 and 2
    and column 1, one sample with [F = 1], [a = [2.0, 3.0]], [b = [5.0]],
    [chi = 1.0], no topics, the factorization flag alone) the output is
    exactly [[11.0, 16.0]] in binary64, whatever [exp] is. *)
Theorem C8_scenario_output (e : float -> float) :
  @mexFunction (binary64 e) (scenario_input e)
  = Some [11.0%float; 16.0%float].
Proof. vm_compute. reflexivity. Qed.

(** C1: on two samples whose [chi] are 1.0 and 3.0 (one dyad, [F = 1],
    [a = 2.0], [b = 5.0]) the second sample adds 11.0 = 1.0 + 2.0 * 5.0 to
    the accumulator, with the [chi] of the first sample, where its own
    [chi] gives 13.0; the output is 11.0, not the 12.0 of the two samples
    each with its own [chi]. *)
Theorem C1_chi_is_read_from_first_sample (e : float -> float) :
  (exists x, @extract (binary64 e) (chi_input e) = Some x /\
             @sample_body (binary64 e) x (prhs2 (chi_input e)) 1 [0.0%float]
             = Some [11.0%float]) /\
  @spec_base_term (binary64 e) (chi_sample e 3.0%float) 1 1
  = Some 13.0%float /\
  @mexFunction (binary64 e) (chi_input e) = Some [11.0%float].
Proof.
  split; [|split].
  - eexists. split; [reflexivity|]. vm_compute. reflexivity.
  - vm_compute. reflexivity.
  - vm_compute. reflexivity.
Qed.

(** C2: on the same two samples, the call on both returns [[11.0]], the
    two calls on one sample each return [[11.0]] and [[13.0]], and their
    elementwise average is [[12.0]]. *)
Theorem C2_average_of_single_calls_differs (e : float -> float) :
  @mexFunction (binary64 e) (chi_input e) = Some [11.0%float] /\
  @single_sample_calls (binary64 e) (chi_input e)
  = [Some [11.0%float]; Some [13.0%float]] /\
  @elementwise_average (binary64 e) 1 [[11.0%float]; [13.0%float]]
  = [12.0%float].
Proof. repeat split; vm_compute; reflexivity. Qed.

(** The specification's second scenario, in integers: an example with
    topic weights 2 and 1 and offsets 7 and 1 gets 7 * 2 + 1 * 1 = 15. *)
Lemma C3_integrate_out_witness :
  exists preds',
    @addOffsets exactZ [1; 2] [2; 1] 2 2 [1; 0; 0; 2] [3; 5; 7; 1] None
                [10; 20] = Some preds' /\
    preds' !! 0%nat = Some 25.
Proof.
  destruct (@C3_integrate_out_adds_expectation exactZ
              [1; 2] [2; 1] 2 2 [1; 0; 0; 2] [3; 5; 7; 1] [10; 20])
    as (preds' & Hrun & _ & Hslot).
  - lia.
  - lia.
  - reflexivity.
  - intros e He. destruct e as [|[|e]].
    + exists 1, 2. unfold in_table. cbn. repeat split; lia.
    + exists 2, 1. unfold in_table. cbn. repeat split; lia.
    + cbn in He. lia.
  - exists preds'. split; [exact Hrun|].
    destruct (Hslot 0%nat 1 2 10) as (terms & Ht & _ & Hp & _);
      [reflexivity..|].
    vm_compute in Ht. injection Ht as <-. exact Hp.
Defined.

Lemma C4_known_topics_witness :
  exists preds',
    (forall users logthetaU,
        @addOffsets exactZ users [2; 1] 2 2 logthetaU [3; 5; 7; 1]
                    (Some [2; 1]) [10; 20] = Some preds') /\
    preds' !! 0%nat = Some 11.
Proof.
  destruct (@C4_known_topics_add_table_entry exactZ
              [2; 1] 2 2 [3; 5; 7; 1] [2; 1] [10; 20])
    as (preds' & Hrun & _ & Hslot).
  - lia.
  - lia.
  - reflexivity.
  - intros e He. destruct e as [|[|e]].
    + exists 2, 2. unfold in_table. cbn. repeat split; lia.
    + exists 1, 1. unfold in_table. cbn. repeat split; lia.
    + cbn in He. lia.
  - exists preds'. split; [exact Hrun|].
    destruct (Hslot 0%nat 2 2 10) as (x & Hx & Hp); [reflexivity..|].
    vm_compute in Hx. injection Hx as <-. exact Hp.
Defined.

Lemma C5_single_topic_witness :
  @mexFunction exactZ (with_zU single_topic_input empty)
  = @mexFunction exactZ (with_zU single_topic_input (vec [1; 1])).
Proof.
  apply (@C5_single_topic_paths_agree exactZ single_topic_input).
  - reflexivity.
  - reflexivity.
  - intros s0 H. vm_compute in H. injection H as <-. reflexivity.
Defined.

Lemma C6_all_flags_false_witness :
  @mexFunction (binary64 no_exp) (chi_batch no_exp [false; false; false])
  = Some [0%float].
Proof.
  apply (@C6_all_flags_false_output_zero no_exp
           (chi_batch no_exp [false; false; false])
           (chi_sample no_exp 1.0%float) 1.0%float).
  - vm_compute. split; [discriminate|reflexivity].
  - vm_compute. lia.
  - reflexivity.
  - reflexivity.
  - reflexivity.
  - reflexivity.
  - reflexivity.
Defined.

Lemma C7_average_witness :
  @mexFunction exactZ (topic_input empty [true; true; true])
  = Some [139; 248].
Proof.
  apply (proj1 (@C7_average_after_accumulation exactZ
                  (topic_input empty [true; true; true]) [278; 496]
                  ltac:(vm_compute; reflexivity))).
  vm_compute. reflexivity.
Defined.

Lemma C9_bias_only_witness :
  @mexFunction exactZ bias_input = Some [10; 10].
Proof.
  apply (proj1 (proj2 (@C9_bias_only_output_is_chi exactZ bias_input
                         bias_sample 10
                         ltac:(reflexivity) ltac:(reflexivity)
                         ltac:(reflexivity) ltac:(reflexivity)
                         ltac:(reflexivity) ltac:(reflexivity)
                         ltac:(reflexivity)))).
  reflexivity.
Defined.

(** Two batches that share their first dyad and its topic and differ in
    the second. *)
Lemma C10_locality_witness :
  ([125; 228] : list Z) !! 0%nat = ([125; 232] : list Z) !! 0%nat.
Proof.
  apply (@C10_output_entry_depends_on_own_example exactZ
           (topic_input (vec [2; 1]) [true; true; true])
           (with_dyads (topic_input (vec [2; 2]) [true; true; true])
                       (vec [1; 2]) (vec [2; 2]))
           [125; 228] [125; 232] 0%nat);
    vm_compute; reflexivity.
Defined.

(** The two-sample batch in integers: the call on both samples returns the
    average of the two single-sample outputs. *)
Lemma linearity_witness :
  ([139; 248] : list Z)
  = @elementwise_average exactZ 2 [[139; 248]; [139; 248]].
Proof.
  apply (@linearity_in_samples_of_one_shape exactZ
           (fun x y z => eq_sym (Z.add_assoc x y z)) Z.add_0_r Z.add_0_l
           Z.div_1_r
           (topic_input empty [true; true; true]) (topic_sample 10)).
  - reflexivity.
  - reflexivity.
  - repeat constructor.
  - vm_compute. reflexivity.
  - vm_compute. reflexivity.
Defined.

(** The second of two samples with offsets 10 and 30 adds 10 + 3 * 5. *)
Lemma chi_of_first_sample_witness :
  exists u it dot,
    ([1; 2] : list Z) !! 1%nat = Some u /\
    ([2; 1] : list Z) !! 1%nat = Some it /\
    @ddot exactZ 1 [2; 3] (1 * wrap32 (u - 1)) [5; 7] (1 * wrap32 (it - 1))
    = Some dot /\
    ([1000; 2025] : list Z) !! 1%nat = Some (2000 + (10 + dot)).
Proof.
  apply (@factorization_adds_chi_of_first_sample exactZ
           (@MkInput exactZ (vec [1; 2]) (vec [2; 1])
              (vec [topic_sample 10; topic_sample 30]) empty empty
              (vec [true; false; false]))
           (@MkExtracted exactZ [1; 2] [2; 1] None None
              (@MkScalars exactZ 2 10 2 1 1 true false false))
           (topic_sample 10) 10 1%nat (topic_sample 30)
           [1000; 2000] [1000 + (10 + 2 * 7); 2000 + (10 + 3 * 5)] 1%nat 2000);
    first [reflexivity | vm_compute; reflexivity | cbn; lia].
Defined.

Lemma bias_only_binary64_witness :
  @mexFunction (binary64 no_exp) (bias_input64 no_exp)
  = Some [2.5%float; 2.5%float; 2.5%float].
Proof.
  apply (@bias_only_output_binary64 no_exp (bias_input64 no_exp)
           (bias_sample64 no_exp) 2.5%float);
    first [reflexivity | vm_compute; discriminate].
Defined.
(** ** The further properties on concrete inputs *)

Lemma returns_in_range_witness :
  exists out,
    @mexFunction exactZ (topic_input (vec [2; 1]) [true; true; true])
    = Some out /\ length out = 2%nat.
Proof.
  eapply (@mexFunction_returns_in_range exactZ
            (topic_input (vec [2; 1]) [true; true; true])).
  - reflexivity.
  - cbn. lia.
  - vm_compute. lia.
  - intros e He. destruct e as [|[|e]]; [| |vm_compute in He; lia].
    + exists 1, 2. split; [reflexivity|]. split; [reflexivity|].
      intros t s Hs Ht. destruct t as [|[|t]]; [| |vm_compute in Ht; lia];
        cbn in Hs; injection Hs as <-;
        unfold sample_in_range, offset_in_range, base_in_range, in_table;
        cbn; change (to_int 2) with 2; change (to_int 1) with 1;
        change (to_ptrdiff 1) with 1; repeat split; lia.
    + exists 2, 1. split; [reflexivity|]. split; [reflexivity|].
      intros t s Hs Ht. destruct t as [|[|t]]; [| |vm_compute in Ht; lia];
        cbn in Hs; injection Hs as <-;
        unfold sample_in_range, offset_in_range, base_in_range, in_table;
        cbn; change (to_int 2) with 2; change (to_int 1) with 1;
        change (to_ptrdiff 1) with 1; repeat split; lia.
Defined.

Lemma keeps_other_slots_witness :
  length [25; 43; 30] = length [10; 20; 30] /\
  forall j, (Z.to_nat (to_mwSize 2) <= j)%nat ->
            [25; 43; 30] !! j = [10; 20; 30] !! j.
Proof.
  apply (@addOffsets_keeps_other_slots exactZ
           [1; 2] [2; 1] 2 2 [1; 0; 0; 2] [3; 5; 7; 1] None).
  reflexivity.
Defined.

Lemma one_entry_per_example_witness :
  length [125; 228]
  = Z.to_nat (mxGetM (prhs0 (topic_input (vec [2; 1]) [true; true; true]))).
Proof.
  apply (@output_has_one_entry_per_example exactZ
           (topic_input (vec [2; 1]) [true; true; true])).
  reflexivity.
Defined.

Lemma flags_without_topics_witness :
  @mexFunction exactZ (with_add bias_input (vec [true; false; false]))
  = @mexFunction exactZ (with_add bias_input (vec [true; true; true])).
Proof.
  apply (@offset_flags_without_topics_have_no_effect exactZ
           bias_input bias_sample true false false true true
           (vec [true; false; false]) (vec [true; true; true]) [] []).
  - reflexivity.
  - reflexivity.
  - reflexivity.
  - left. vm_compute. discriminate.
  - left. vm_compute. discriminate.
Defined.

Lemma topics_not_read_witness :
  @mexFunction exactZ
    (with_zM (with_zU (topic_input empty [true; false; false]) (vec [7; 7]))
             (vec [9; 9]))
  = @mexFunction exactZ (topic_input empty [true; false; false]).
Proof.
  eapply (@topics_of_disabled_offsets_are_not_read exactZ
            (topic_input empty [true; false; false])).
  - reflexivity.
  - left. reflexivity.
  - left. reflexivity.
Defined.

Lemma first_samples_witness :
  @mexFunction exactZ
    (with_samples (topic_input1 (vec [2; 1]) (vec [true; true; true]))
       (MxArray 1 1 [topic_sample 10; topic_sample 77]))
  = @mexFunction exactZ (topic_input1 (vec [2; 1]) (vec [true; true; true])).
Proof.
  apply (@only_the_first_samples_are_read exactZ
           (topic_input1 (vec [2; 1]) (vec [true; true; true]))).
  - vm_compute. discriminate.
  - reflexivity.
  - reflexivity.
Defined.

Lemma empty_batch_witness :
  @mexFunction exactZ
    (@MkInput exactZ empty empty (vec [topic_sample 10]) empty empty
              (vec [true; true; true]))
  = Some [].
Proof.
  eapply (@empty_batch_returns_empty exactZ).
  - reflexivity.
  - reflexivity.
  - vm_compute. lia.
Defined.

Lemma factor_index_witness :
  @mexFunction exactZ
    (@MkInput exactZ (vec [1; 3]) (vec [2; 1]) (vec [topic_sample 10])
              empty empty (vec [true; false; false]))
  = None.
Proof.
  eapply (@factor_index_out_of_range_fails exactZ
            (@MkInput exactZ (vec [1; 3]) (vec [2; 1]) (vec [topic_sample 10])
                      empty empty (vec [true; false; false]))
            _ 0%nat (topic_sample 10) 1%nat 3 1).
  - reflexivity.
  - reflexivity.
  - reflexivity.
  - vm_compute. lia.
  - reflexivity.
  - vm_compute. lia.
  - reflexivity.
  - reflexivity.
  - left. vm_compute. reflexivity.
Defined.


Lemma single_topic_row_witness :
  exists preds',
    (forall users logthetaU,
        @addOffsets exactZ users [2; 1] 1 2 logthetaU [3; 5] None [10; 20]
        = Some preds') /\
    preds' !! 0%nat = Some 15.
Proof.
  destruct (@single_topic_adds_only_row exactZ [2; 1] 2 [3; 5] [10; 20])
    as (preds' & Hrun & _ & Hslot).
  - lia.
  - reflexivity.
  - intros e He. destruct e as [|[|e]].
    + exists 2. unfold in_table. cbn. repeat split; lia.
    + exists 1. unfold in_table. cbn. repeat split; lia.
    + cbn in He. lia.
  - exists preds'. split; [exact Hrun|].
    destruct (Hslot 0%nat 2 10) as (x & Hx & Hp); [reflexivity..|].
    vm_compute in Hx. injection Hx as <-. exact Hp.
Defined.

Lemma swapped_roles_witness :
  @mexFunction exactZ (swap_roles (topic_input (vec [2; 1]) [true; true; true]))
  = @mexFunction exactZ (topic_input (vec [2; 1]) [true; true; true]).
Proof.
  apply (@roles_of_users_and_items_can_be_swapped exactZ
           (fun x y z => eq_sym (Z.add_assoc x y z))
           Z.add_comm Z.add_0_r Z.mul_comm).
  - cbn. lia.
  - reflexivity.
  - intros s0 Hs. cbn in Hs. injection Hs as <-. reflexivity.
Defined.

Lemma partial_predictions_witness :
  @mexFunction exactZ
    (with_add (topic_input1 (vec [2; 1]) empty) (flags3 true true true))
  = Some (zip_with Z.add (zip_with Z.add [1; 3] [100; 200]) [24; 25]).
Proof.
  apply (@prediction_is_sum_of_partial_predictions exactZ
           (fun x y z => eq_sym (Z.add_assoc x y z)) Z.add_0_r Z.add_0_l
           (topic_input1 (vec [2; 1]) empty) true true true).
  - reflexivity.
  - cbn. lia.
  - reflexivity.
  - reflexivity.
  - reflexivity.
Defined.
